(** * redfrog-core: the tunnel backend and the DNS split-horizon server

    A shallow embedding of [proxy_client/proxy_backend.go] and of the DNS
    server ([package dns_proxy]) of weishi258/redfrog-core, followed by the
    properties of the specification that were checked against it.

    Conventions.  A Go [int] is a [Z] (an [int] has 64 bits on the targets
    the proxy is built for); conversions to [int32] and arithmetic on
    [int64] write out the wrap-around.  A [[]byte] is a [list byte] whose capacity equals its
    length.  Go maps are [gmap]s.  Operations of the operating system and of
    third-party packages (sockets, the cipher, [math/rand], [miekg/dns]) are
    answered by an explicit environment, and every call logs the effects it
    performs.  *)

From Stdlib Require Import ZArith List Lia Bool.
From stdpp Require Import base gmap list strings.

Local Open Scope Z_scope.

(** ** Go values shared by both packages *)

Module Go.

Abbreviation byte := Byte.byte.

(** [error] values: [errors.New], [errors.New(fmt.Sprintf(format, arg))],
    [errors.Wrap], and errors handed back by the operating system or a
    library, told apart by a code. *)
Inductive error : Type :=
| New (msg : string)
| Newf (format : string) (arg : Z)
| Wrap (cause : error) (msg : string)
| Ext (code : nat).

(** The outcome of a call that returns [(value, error)] and may panic. *)
Inductive result (A : Type) : Type :=
| Ok (a : A)
| Err (e : error)
| Panic.
Arguments Ok {A} a.
Arguments Err {A} e.
Arguments Panic {A}.

Definition len {A} (s : list A) : Z := Z.of_nat (length s).

(** [make([]byte, n)]: panics when [n] is negative. *)
Definition make (n : Z) : option (list byte) :=
  if n <? 0 then None else Some (replicate (Z.to_nat n) Byte.x00).

(** [copy(dst, src)]: overwrites the first [min(len dst, len src)] elements
    of [dst]. *)
Definition copy {A} (dst src : list A) : list A :=
  take (length dst) src ++ drop (length src) dst.

(** [s[lo:hi]]; [None] is the run-time panic for indices out of range. *)
Definition slice {A} (s : list A) (lo hi : Z) : option (list A) :=
  if (0 <=? lo) && (lo <=? hi) && (hi <=? len s)
  then Some (take (Z.to_nat (hi - lo)) (drop (Z.to_nat lo) s))
  else None.

(** [copy(s[lo:], src)], seen from [s]. *)
Definition copy_at {A} (s : list A) (lo : Z) (src : list A) : option (list A) :=
  if (0 <=? lo) && (lo <=? len s)
  then Some (take (Z.to_nat lo) s ++ copy (drop (Z.to_nat lo) s) src)
  else None.

(** Conversion of an [int] to [int32]: the low 32 bits, read as a signed
    number. *)
Definition int32 (x : Z) : Z := (x + 2 ^ 31) mod 2 ^ 32 - 2 ^ 31.

(** Arithmetic on [int64] (a [time.Duration]) keeps the low 64 bits. *)
Definition int64 (x : Z) : Z := (x + 2 ^ 63) mod 2 ^ 64 - 2 ^ 63.

(** [s[i]]; [None] is the run-time panic for an index out of range. *)
Definition index {A} (s : list A) (i : Z) : option A :=
  if (0 <=? i) && (i <? len s) then s !! Z.to_nat i else None.

(** [strings.TrimSuffix] and [strings.Index(s, sep) >= 0]. *)
Definition HasSuffix (s suffix : string) : bool :=
  let n := String.length s in
  let k := String.length suffix in
  (k <=? n)%nat && String.eqb (String.substring (n - k) k s) suffix.
Definition TrimSuffix (s suffix : string) : string :=
  if HasSuffix s suffix
  then String.substring 0 (String.length s - String.length suffix) s
  else s.
Definition Contains (s sep : string) : bool :=
  match String.index 0 sep s with Some _ => true | None => false end.

(** [time.Time] as a count of nanoseconds; [Before] and [After] are the
    strict orders. *)
Definition Time := Z.
Definition Before (t u : Time) : bool := t <? u.
Definition After (t u : Time) : bool := u <? t.
Definition Second : Z := 1000000000.

End Go.
Import Go.

(** ** package proxy_client: the tunnel backend *)

Module proxy_client.

(** A socket is known by its descriptor. *)
Definition conn := nat.

Record udpProxyEntry : Type := {
  src_ : conn;
  dst_ : conn;
  srcAddr_ : string;
  header_ : list byte;
  timeout : Z
}.

(** Effects of the backend that the properties below talk about. *)
Inductive event : Type :=
| EvPoolGet
| EvPoolPut
| EvAlloc (n : Z)
| EvListenPacket (c : conn)
| EvDialTransparentUDP (c : conn)
| EvSpawnReader (key : string) (e : udpProxyEntry)
| EvDnsNatAdd (key : string) (c : conn)
| EvDnsNatDel (key : string)
| EvWriteTo (c : conn) (payload : list byte)
| EvSetReadDeadline (c : conn)
| EvReadFrom (c : conn)
| EvClose (c : conn)
| EvGetKcpConn
| EvDialTCP
| EvSetKeepAlive (c : conn)
| EvSetWriteDeadline (c : conn)
| EvWrite (c : conn) (payload : list byte)
| EvCopyBothWays (a b : conn).

Definition is_pool_get (e : event) : bool :=
  match e with EvPoolGet => true | _ => false end.
Definition is_pool_put (e : event) : bool :=
  match e with EvPoolPut => true | _ => false end.
Definition is_alloc (e : event) : bool :=
  match e with EvAlloc _ => true | _ => false end.

(** The buffer traffic of a call: what it borrowed from the pool, gave back
    to it, or allocated. *)
Definition pool_events (tr : list event) : list event :=
  List.filter (fun e => is_pool_get e || is_pool_put e || is_alloc e) tr.

(** [ReadFrom(buf)]: the datagram is cut to the buffer and stored at its
    front; the count of stored bytes is returned. *)
Definition read_into (buf dgram : list byte) : Z * list byte :=
  (Z.min (len dgram) (len buf), copy buf dgram).

(** *** copyFromRemote *)

(** The reader task of a NAT entry.  [reads] are the datagrams that arrive
    on the tunnel socket, each with the outcome of writing it back; the
    read after the last of them fails with [last].  The error the task
    stops with is returned; [None] is a run-time panic. *)
Fixpoint copyFromRemote (c : udpProxyEntry) (buffer : list byte)
    (reads : list (list byte * option error)) (last : error)
  : option error * list event :=
  match reads with
  | [] => (Some last, [EvSetReadDeadline (dst_ c); EvReadFrom (dst_ c)])
  | (dgram, wr) :: reads =>
    let '(n, buffer) := read_into buffer dgram in
    let pre := [EvSetReadDeadline (dst_ c); EvReadFrom (dst_ c)] in
    if len (header_ c) <? n then
      match slice buffer (len (header_ c)) n with
      | None => (None, pre)
      | Some tail =>
        match wr with
        | Some e => (Some e, pre ++ [EvWriteTo (src_ c) tail])
        | None =>
          let '(e, tr) := copyFromRemote c buffer reads last in
          (e, pre ++ EvWriteTo (src_ c) tail :: tr)
        end
      end
    else (Some (Newf "UDP Read too few bytes: %d" n), pre)
  end.

Definition computeUDPKey (src dst : string) : string := src +:+ "->" +:+ dst.

(** *** RelayUDPData *)

Record udp_env : Type := {
  (** [net.ListenPacket], wrapped by the cipher *)
  udp_listen : error + conn;
  (** [network.DialTransparentUDP] *)
  udp_dial : error + conn;
  (** [network.ConvertShadowSocksAddr] inside [createUDPProxyEntry] *)
  udp_convert : string -> error + list byte;
  (** [udpProxy.dst_.WriteTo] *)
  udp_write : option error
}.

Definition createUDPProxyEntry (env : udp_env) (src dst : conn)
    (srcAddr dstAddr : string) (timeout : Z) : error + udpProxyEntry :=
  match udp_convert env dstAddr with
  | inl e => inl e
  | inr addr => inr {| src_ := src; dst_ := dst; srcAddr_ := srcAddr;
                       header_ := addr; timeout := timeout |}
  end.

(** The first half of [RelayUDPData]: the entry of the flow, found in the
    NAT map or built together with its reader task. *)
Definition udp_entry (env : udp_env) (nat_ : gmap string udpProxyEntry)
    (srcAddr dstAddr : string) (udpTimeout : Z)
  : error * list event + udpProxyEntry * list event :=
  let udpKey := computeUDPKey srcAddr dstAddr in
  match nat_ !! udpKey with
  | Some udpProxy => inr (udpProxy, [])
  | None =>
    match udp_listen env with
    | inl e => inl (Wrap e "UDP proxy listen local failed", [])
    | inr dstConn =>
      match udp_dial env with
      | inl e =>
        inl (Wrap e "UDP proxy listen using transparent failed",
             [EvListenPacket dstConn; EvClose dstConn])
      | inr srcConn =>
        let made := [EvListenPacket dstConn; EvDialTransparentUDP srcConn] in
        match createUDPProxyEntry env srcConn dstConn srcAddr dstAddr udpTimeout with
        | inl e =>
          inl (Wrap e "Create udp proxy entry failed",
               made ++ [EvClose dstConn; EvClose srcConn])
        | inr udpProxy => inr (udpProxy, made ++ [EvSpawnReader udpKey udpProxy])
        end
      end
    end
  end.

(** The second half: the outbound send.  [bufSize] is
    [leakyBuffer.GetBufferSize()], [newBuffer] the buffer [leakyBuffer.Get()]
    hands out and [data] is [data.Bytes()]. *)
Definition udp_send (env : udp_env) (udpProxy : udpProxyEntry)
    (bufSize : Z) (newBuffer data : list byte) (dataLen : Z)
  : result unit * list event :=
  let headerLen := len (header_ udpProxy) in
  let totalLen := headerLen + dataLen in
  let sent payload :=
    match udp_write env with
    | Some e => (Err e, [EvWriteTo (dst_ udpProxy) payload])
    | None => (Ok tt, [EvWriteTo (dst_ udpProxy) payload])
    end in
  if bufSize <? totalLen then
    match make totalLen with
    | None => (Panic, [EvAlloc totalLen])
    | Some writeData =>
      match slice writeData 0 headerLen, slice data 0 dataLen with
      | Some _, Some body =>
        let writeData := copy writeData (header_ udpProxy) in
        match copy_at writeData headerLen body with
        | Some writeData =>
          let '(r, tr) := sent writeData in (r, EvAlloc totalLen :: tr)
        | None => (Panic, [EvAlloc totalLen])
        end
      | _, _ => (Panic, [EvAlloc totalLen])
      end
    end
  else
    let fin (p : result unit * list event) := (p.1, EvPoolGet :: p.2 ++ [EvPoolPut]) in
    let newBuffer := copy newBuffer (header_ udpProxy) in
    match slice data 0 dataLen with
    | None => fin (Panic, [])
    | Some body =>
      match copy_at newBuffer headerLen body with
      | None => fin (Panic, [])
      | Some newBuffer =>
        match slice newBuffer 0 totalLen with
        | None => fin (Panic, [])
        | Some payload => fin (sent payload)
        end
      end
    end.

Definition RelayUDPData (env : udp_env) (nat_ : gmap string udpProxyEntry)
    (udpTimeout : Z) (srcAddr dstAddr : string)
    (bufSize : Z) (newBuffer data : list byte) (dataLen : Z)
  : result unit * list event :=
  match udp_entry env nat_ srcAddr dstAddr udpTimeout with
  | inl (e, tr) => (Err e, tr)
  | inr (udpProxy, tr) =>
    let '(r, tr') := udp_send env udpProxy bufSize newBuffer data dataLen in
    (r, tr ++ EvSetReadDeadline (dst_ udpProxy) :: tr')
  end.

(** *** RelayDNS *)

(** What the outside world answers during one [RelayDNS] call. *)
Record dns_env : Type := {
  (** [network.ConvertShadowSocksAddr] *)
  dns_convert : string -> error + list byte;
  (** [net.ListenPacket], wrapped by the cipher *)
  dns_listen : error + conn;
  (** [dstConn.WriteTo] *)
  dns_write : option error;
  (** [dstConn.ReadFrom]: an error or the datagram that arrived *)
  dns_read : error + list byte
}.

(** Deferred calls of [RelayDNS], in the order they run. *)
Definition dns_cleanup (srcAddr : string) (c : conn) : list event :=
  [EvDnsNatDel srcAddr; EvClose c; EvPoolPut].

Definition RelayDNS (env : dns_env) (nat_ : gmap string conn)
    (srcAddr dnsAddr : string) (data buffer : list byte)
  : result (list byte) * gmap string conn * list event :=
  match dns_convert env dnsAddr with
  | inl e => (Err (Wrap e "DNS convert to shadowsocks addr failed"), nat_, [])
  | inr addrBytes =>
    let addrLen := len addrBytes in
    let totalLen := addrLen + len data in
    let buffer := copy buffer addrBytes in
    match copy_at buffer addrLen data with
    | None => (Panic, nat_, [EvPoolGet; EvPoolPut])
    | Some buffer =>
      let found :=
        match nat_ !! srcAddr with
        | Some c => inr (c, nat_, [])
        | None =>
          match dns_listen env with
          | inl e => inl e
          | inr c => inr (c, <[srcAddr := c]> nat_,
                          [EvListenPacket c; EvDnsNatAdd srcAddr c])
          end
        end in
      match found with
      | inl e =>
        (Err (Wrap e "UDP proxy listen local failed"), nat_, [EvPoolGet; EvPoolPut])
      | inr (dstConn, nat1, evs) =>
        let nat2 := delete srcAddr nat1 in
        let fin r tr := (r, nat2, EvPoolGet :: evs ++ tr ++ dns_cleanup srcAddr dstConn) in
        match slice buffer 0 totalLen with
        | None => fin Panic []
        | Some out =>
          match dns_write env with
          | Some e => fin (Err (Wrap e "Write to remote DNS failed")) [EvWriteTo dstConn out]
          | None =>
            let tr := [EvWriteTo dstConn out; EvSetReadDeadline dstConn; EvReadFrom dstConn] in
            match dns_read env with
            | inl e => fin (Err e) tr
            | inr dgram =>
              let '(n, buffer) := read_into buffer dgram in
              if n <=? addrLen then fin (Err (New "Read DNS query empty")) tr
              else
                match make n, slice buffer addrLen n with
                | Some response, Some tail => fin (Ok (copy response tail)) (tr ++ [EvAlloc n])
                | _, _ => fin Panic tr
                end
            end
          end
        end
      end
    end
  end.

(** *** Life cycle of the UDP NAT entries

    The reader task of an entry runs
    [Add; copyFromRemote; Del; src_.Close(); dst_.Close()], and [Stop] closes
    both sockets of every entry that is in the map at that moment.  Each
    entry owns two fresh sockets, so the [Close] calls are counted per
    entry.  The steps of all tasks interleave freely. *)

Inductive reader_pc : Type :=
| RSpawned | RCopying | RDeleted | RSrcClosed | RDone.

#[global] Instance reader_pc_eq_dec : EqDecision reader_pc.
Proof. solve_decision. Defined.

Record nat_entry : Type := {
  ne_key : string;
  ne_pc : reader_pc;
  ne_src_closes : nat;
  ne_dst_closes : nat
}.

Record backend : Type := {
  (** [udpNatMap_.entries], each entry known by its index in [created] *)
  udpNatMap_ : gmap string nat;
  (** every entry [RelayUDPData] has built so far *)
  created : list nat_entry
}.

Inductive action : Type :=
| ASpawn (key : string)
| AAdd (i : nat)
| ADel (i : nat)
| ACloseSrc (i : nat)
| ACloseDst (i : nat)
| AStop.

Definition is_stop (a : action) : bool :=
  match a with AStop => true | _ => false end.

Definition set_pc (pc : reader_pc) (e : nat_entry) : nat_entry :=
  {| ne_key := ne_key e; ne_pc := pc;
     ne_src_closes := ne_src_closes e; ne_dst_closes := ne_dst_closes e |}.

Definition close_src (e : nat_entry) : nat_entry :=
  {| ne_key := ne_key e; ne_pc := ne_pc e;
     ne_src_closes := S (ne_src_closes e); ne_dst_closes := ne_dst_closes e |}.

Definition close_dst (e : nat_entry) : nat_entry :=
  {| ne_key := ne_key e; ne_pc := ne_pc e;
     ne_src_closes := ne_src_closes e; ne_dst_closes := S (ne_dst_closes e) |}.

(** The body of the loop of [Stop], for the entry of index [i]. *)
Definition stop_entry (m : gmap string nat) (i : nat) (e : nat_entry) : nat_entry :=
  if decide (m !! ne_key e = Some i) then close_dst (close_src e) else e.

Definition reader_step (b : backend) (i : nat) (at_ : reader_pc)
    (f : nat_entry -> nat_entry) (g : string -> gmap string nat -> gmap string nat)
  : option backend :=
  match created b !! i with
  | Some e =>
    if decide (ne_pc e = at_)
    then Some {| udpNatMap_ := g (ne_key e) (udpNatMap_ b);
                 created := <[i := f e]> (created b) |}
    else None
  | None => None
  end.

Definition nat_step (a : action) (b : backend) : option backend :=
  match a with
  | ASpawn k =>
    Some {| udpNatMap_ := udpNatMap_ b;
            created := created b ++
              [{| ne_key := k; ne_pc := RSpawned; ne_src_closes := 0; ne_dst_closes := 0 |}] |}
  | AAdd i => reader_step b i RSpawned (set_pc RCopying) (fun k m => <[k := i]> m)
  | ADel i => reader_step b i RCopying (set_pc RDeleted) (fun k m => delete k m)
  | ACloseSrc i => reader_step b i RDeleted (fun e => set_pc RSrcClosed (close_src e)) (fun _ m => m)
  | ACloseDst i => reader_step b i RSrcClosed (fun e => set_pc RDone (close_dst e)) (fun _ m => m)
  | AStop =>
    Some {| udpNatMap_ := udpNatMap_ b;
            created := imap (stop_entry (udpNatMap_ b)) (created b) |}
  end.

Fixpoint nat_run (tr : list action) (b : backend) : option backend :=
  match tr with
  | [] => Some b
  | a :: tr => match nat_step a b with Some b' => nat_run tr b' | None => None end
  end.

(** [CreateProxyBackend]: an empty map. *)
Definition fresh_backend : backend := {| udpNatMap_ := ∅; created := [] |}.

(** The number of [Close] calls each socket has received once the reader
    is at [pc], when only the reader closes. *)
Definition src_closes_at (pc : reader_pc) : nat :=
  match pc with RSrcClosed | RDone => 1%nat | _ => 0%nat end.
Definition dst_closes_at (pc : reader_pc) : nat :=
  match pc with RDone => 1%nat | _ => 0%nat end.

(** An entry that is in the map has a reader that is copying. *)
Definition nat_inv (b : backend) : Prop :=
  forall k i, udpNatMap_ b !! k = Some i ->
    exists e, created b !! i = Some e /\ ne_key e = k /\ ne_pc e = RCopying.

(** Each socket has received the [Close] calls of its reader and no other. *)
Definition closed_by_reader_only (b : backend) : Prop :=
  forall i e, created b !! i = Some e ->
    ne_src_closes e = src_closes_at (ne_pc e)
    /\ ne_dst_closes e = dst_closes_at (ne_pc e).

(** *** RelayTCPData *)

Record relayDataRes : Type := {
  outboundSize : Z;
  Err : option error
}.

Record tcp_env : Type := {
  (** [network.ConvertShadowSocksAddr(src.LocalAddr().String())] *)
  tcp_convert : error + list byte;
  (** [c.kcpBackend.GetKcpConn()] *)
  tcp_kcp_get : error + conn;
  (** [kcpConn.Write(header)] *)
  tcp_kcp_write : option error;
  (** [io.Copy(kcpConn, srcConn)] and [io.Copy(srcConn, kcpConn)] *)
  tcp_kcp_up : Z * option error;
  tcp_kcp_down : Z * option error;
  (** [net.DialTCP] inside [createTCPConn] *)
  tcp_dial : error + conn;
  (** [dst.Write(originDst)] *)
  tcp_write : option error;
  (** [io.Copy(dst, src)] and [io.Copy(src, dst)] *)
  tcp_up : Z * option error;
  tcp_down : Z * option error
}.

(** The tail shared by both relays: the caller's copy gave [(n, err)] and
    [rs] came over the channel. *)
Definition join (mine : Z * option error) (rs : relayDataRes) : Z * Z * option error :=
  (mine.1, outboundSize rs, match mine.2 with None => Err rs | Some e => Some e end).

(** [EvCopyBothWays] stands for the two concurrent copies, which are spelled
    out task by task further down. *)
Definition relayKCPData (env : tcp_env) (srcConn kcpConn : conn) (header : list byte)
  : Z * Z * option error * list event :=
  let pre := [EvSetWriteDeadline srcConn; EvSetWriteDeadline kcpConn;
              EvWrite kcpConn header] in
  match tcp_kcp_write env with
  | Some e =>
    (0, 0, Some (Wrap e "Kcp write to remote server failed"), pre ++ [EvClose kcpConn])
  | None =>
    (join (tcp_kcp_up env)
          {| outboundSize := (tcp_kcp_down env).1; Err := (tcp_kcp_down env).2 |},
     pre ++ [EvCopyBothWays srcConn kcpConn; EvClose kcpConn])
  end.

(** [createTCPConn]: the dialled connection with keep-alive on, wrapped by
    the cipher. *)
Definition createTCPConn (env : tcp_env) : (error + conn) * list event :=
  match tcp_dial env with
  | inl e => (inl e, [EvDialTCP])
  | inr c => (inr c, [EvDialTCP; EvSetKeepAlive c])
  end.

(** [kcpBackend] is [true] when the backend holds a mux transport. *)
Definition RelayTCPData (env : tcp_env) (kcpBackend : bool) (src : conn)
  : Z * Z * option error * list event :=
  match tcp_convert env with
  | inl e => (0, 0, Some (Wrap e "Parse origin dst failed"), [])
  | inr originDst =>
    let plain (tried : list event) :=
      match createTCPConn env with
      | (inl e, tr) => (0, 0, Some (Wrap e "Create remote conn failed"), tried ++ tr)
      | (inr dst, tr) =>
        let pre := tried ++ tr ++
                   [EvSetWriteDeadline dst; EvSetWriteDeadline src; EvWrite dst originDst] in
        match tcp_write env with
        | Some e =>
          (0, 0, Some (Wrap e "Write to remote server failed"), pre ++ [EvClose dst])
        | None =>
          (join (tcp_down env)
                {| outboundSize := (tcp_up env).1; Err := (tcp_up env).2 |},
           pre ++ [EvCopyBothWays src dst; EvClose dst])
        end
      end in
    if kcpBackend then
      match tcp_kcp_get env with
      | inr kcpConn =>
        let '(r, tr) := relayKCPData env src kcpConn originDst in (r, EvGetKcpConn :: tr)
      | inl _ => plain [EvGetKcpConn]
      end
    else plain []
  end.

(** *** The copy phase of the plain tunnel, task by task

    The caller runs [io.Copy(src, dst)], sets both deadlines, receives from
    the channel, runs the deferred [dst.Close()] and returns.  The spawned
    task runs [io.Copy(dst, src)], sets both deadlines and sends.  The
    channel is unbuffered: send and receive are one joint step. *)

Inductive task : Type := Caller | Spawned.
Inductive side : Type := Dst | Src.

Inductive tevent : Type :=
| TCopyDone (t : task) (n : Z)
| TSetDeadline (t : task) (s : side)
| TRendezvous
| TCloseDst
| TReturn (inboundSize outboundSize : Z) (err : option error).

Inductive caller_pc : Type := M_copy | M_set_dst | M_set_src | M_recv | M_close | M_ret | M_done.
Inductive spawned_pc : Type := G_copy | G_set_dst | G_set_src | G_send | G_done.

Record relay_state : Type := {
  m_pc : caller_pc;
  g_pc : spawned_pc;
  (** locals of the caller *)
  m_copy : Z * option error;
  m_rs : relayDataRes;
  (** local of the spawned task *)
  g_res : relayDataRes;
  trace : list tevent
}.

Definition zero_res : relayDataRes := {| outboundSize := 0; Err := None |}.

Definition relay_init : relay_state :=
  {| m_pc := M_copy; g_pc := G_copy; m_copy := (0, None); m_rs := zero_res;
     g_res := zero_res; trace := [] |}.

Definition caller_moves (s : relay_state) (pc : caller_pc) (ev : tevent) : relay_state :=
  {| m_pc := pc; g_pc := g_pc s; m_copy := m_copy s; m_rs := m_rs s;
     g_res := g_res s; trace := trace s ++ [ev] |}.

Definition spawned_moves (s : relay_state) (pc : spawned_pc) (ev : tevent) : relay_state :=
  {| m_pc := m_pc s; g_pc := pc; m_copy := m_copy s; m_rs := m_rs s;
     g_res := g_res s; trace := trace s ++ [ev] |}.

Section CopyPhase.
(** [down] is the outcome of [io.Copy(src, dst)], [up] that of
    [io.Copy(dst, src)]. *)
Variables down up : Z * option error.

Inductive relay_step : relay_state -> relay_state -> Prop :=
| step_m_copy s : m_pc s = M_copy ->
    relay_step s {| m_pc := M_set_dst; g_pc := g_pc s; m_copy := down; m_rs := m_rs s;
                    g_res := g_res s; trace := trace s ++ [TCopyDone Caller down.1] |}
| step_m_set_dst s : m_pc s = M_set_dst ->
    relay_step s (caller_moves s M_set_src (TSetDeadline Caller Dst))
| step_m_set_src s : m_pc s = M_set_src ->
    relay_step s (caller_moves s M_recv (TSetDeadline Caller Src))
| step_g_copy s : g_pc s = G_copy ->
    relay_step s {| m_pc := m_pc s; g_pc := G_set_dst; m_copy := m_copy s; m_rs := m_rs s;
                    g_res := {| outboundSize := up.1; Err := up.2 |};
                    trace := trace s ++ [TCopyDone Spawned up.1] |}
| step_g_set_dst s : g_pc s = G_set_dst ->
    relay_step s (spawned_moves s G_set_src (TSetDeadline Spawned Dst))
| step_g_set_src s : g_pc s = G_set_src ->
    relay_step s (spawned_moves s G_send (TSetDeadline Spawned Src))
| step_rendezvous s : m_pc s = M_recv -> g_pc s = G_send ->
    relay_step s {| m_pc := M_close; g_pc := G_done; m_copy := m_copy s; m_rs := g_res s;
                    g_res := g_res s; trace := trace s ++ [TRendezvous] |}
| step_m_close s : m_pc s = M_close ->
    relay_step s (caller_moves s M_ret TCloseDst)
| step_m_ret s : m_pc s = M_ret ->
    relay_step s
      (caller_moves s M_done
         (let '(i, o, e) := join (m_copy s) (m_rs s) in TReturn i o e)).

(** The same steps as a function: the moves of the caller, of the spawned
    task, and the joint one. *)
Definition caller_next (s : relay_state) : list relay_state :=
  match m_pc s with
  | M_copy =>
    [{| m_pc := M_set_dst; g_pc := g_pc s; m_copy := down; m_rs := m_rs s;
        g_res := g_res s; trace := trace s ++ [TCopyDone Caller down.1] |}]
  | M_set_dst => [caller_moves s M_set_src (TSetDeadline Caller Dst)]
  | M_set_src => [caller_moves s M_recv (TSetDeadline Caller Src)]
  | M_recv =>
    match g_pc s with
    | G_send =>
      [{| m_pc := M_close; g_pc := G_done; m_copy := m_copy s; m_rs := g_res s;
          g_res := g_res s; trace := trace s ++ [TRendezvous] |}]
    | _ => []
    end
  | M_close => [caller_moves s M_ret TCloseDst]
  | M_ret =>
    [caller_moves s M_done (let '(i, o, e) := join (m_copy s) (m_rs s) in TReturn i o e)]
  | M_done => []
  end.

Definition spawned_next (s : relay_state) : list relay_state :=
  match g_pc s with
  | G_copy =>
    [{| m_pc := m_pc s; g_pc := G_set_dst; m_copy := m_copy s; m_rs := m_rs s;
        g_res := {| outboundSize := up.1; Err := up.2 |};
        trace := trace s ++ [TCopyDone Spawned up.1] |}]
  | G_set_dst => [spawned_moves s G_set_src (TSetDeadline Spawned Dst)]
  | G_set_src => [spawned_moves s G_send (TSetDeadline Spawned Src)]
  | G_send | G_done => []
  end.

Definition relay_next (s : relay_state) : list relay_state :=
  caller_next s ++ spawned_next s.

(** The states reached from [s] in exactly [n] steps. *)
Fixpoint relay_after (n : nat) (s : relay_state) : list relay_state :=
  match n with
  | O => [s]
  | S n => flat_map (relay_after n) (relay_next s)
  end.

(** Every state within ten steps of the start, by depth. *)
Definition within_reach : list relay_state :=
  flat_map (fun n => relay_after n relay_init) (seq 0 11).

Inductive relay_steps : nat -> relay_state -> relay_state -> Prop :=
| relay_steps_O s : relay_steps O s s
| relay_steps_S n s1 s2 s3 :
    relay_step s1 s2 -> relay_steps n s2 s3 -> relay_steps (S n) s1 s3.

End CopyPhase.

Definition is_done (s : relay_state) : bool :=
  match m_pc s with M_done => true | _ => false end.

(** How far each task has come; every step moves one of them on. *)
Definition caller_rank (pc : caller_pc) : nat :=
  match pc with
  | M_copy => 0 | M_set_dst => 1 | M_set_src => 2 | M_recv => 3
  | M_close => 4 | M_ret => 5 | M_done => 6
  end.
Definition spawned_rank (pc : spawned_pc) : nat :=
  match pc with
  | G_copy => 0 | G_set_dst => 1 | G_set_src => 2 | G_send => 3 | G_done => 4
  end.
Definition rank (s : relay_state) : nat :=
  (caller_rank (m_pc s) + spawned_rank (g_pc s))%nat.

(** Questions about a trace. *)
Definition is_copy_done (t : task) (e : tevent) : bool :=
  match e, t with
  | TCopyDone Caller _, Caller | TCopyDone Spawned _, Spawned => true
  | _, _ => false
  end.
Definition is_set_deadline (t : task) (sd : side) (e : tevent) : bool :=
  match e, t, sd with
  | TSetDeadline Caller Dst, Caller, Dst | TSetDeadline Caller Src, Caller, Src
  | TSetDeadline Spawned Dst, Spawned, Dst | TSetDeadline Spawned Src, Spawned, Src => true
  | _, _, _ => false
  end.
Definition is_return (e : tevent) : bool :=
  match e with TReturn _ _ _ => true | _ => false end.

(** [then_ p q tr]: the first event of [tr] that satisfies [p] is at once
    followed by one that satisfies [q]. *)
Fixpoint then_ (p q : tevent -> bool) (tr : list tevent) : bool :=
  match tr with
  | [] => false
  | e :: tr' =>
    if p e then match tr' with e' :: _ => q e' | [] => false end
    else then_ p q tr'
  end.

(** [later p q tr]: an event that satisfies [q] comes after the first one
    that satisfies [p]. *)
Fixpoint later (p q : tevent -> bool) (tr : list tevent) : bool :=
  match tr with
  | [] => false
  | e :: tr' => if p e then existsb q tr' else later p q tr'
  end.

(** What a finished run of the copy phase must look like: within each task
    the copy is followed by the two deadline writes, and the return is the
    last event and comes after both copies. *)
Definition orderly (tr : list tevent) : bool :=
  later (is_copy_done Caller) (is_set_deadline Caller Dst) tr
  && later (is_set_deadline Caller Dst) (is_set_deadline Caller Src) tr
  && later (is_copy_done Spawned) (is_set_deadline Spawned Dst) tr
  && later (is_set_deadline Spawned Dst) (is_set_deadline Spawned Src) tr
  && later (is_set_deadline Caller Src) is_return tr
  && later (is_set_deadline Spawned Src) is_return tr
  && match last tr with Some e => is_return e | None => false end
  && (length (filter (fun e => is_return e = true) tr) =? 1)%nat.

(** Each socket has received the [Close] calls of its reader, and beyond
    them as many calls as the other socket of the entry. *)
Definition closed_in_pairs (b : backend) : Prop :=
  forall i e, created b !! i = Some e ->
    (src_closes_at (ne_pc e) <= ne_src_closes e)%nat
    /\ (dst_closes_at (ne_pc e) <= ne_dst_closes e)%nat
    /\ (ne_src_closes e - src_closes_at (ne_pc e)
        = ne_dst_closes e - dst_closes_at (ne_pc e))%nat.

(** *** The proxy client: backend selection and the UDP worker *)

(** What the properties ask of a trace. *)
Definition opens (c : conn) (e : event) : bool :=
  match e with
  | EvListenPacket c' | EvDialTransparentUDP c' => Nat.eqb c c'
  | _ => false
  end.
Definition is_spawn (e : event) : bool :=
  match e with EvSpawnReader _ _ => true | _ => false end.
Definition is_close_of (c : conn) (e : event) : bool :=
  match e with EvClose c' => Nat.eqb c c' | _ => false end.
Definition is_copy_both_ways (e : event) : bool :=
  match e with EvCopyBothWays _ _ => true | _ => false end.
Definition is_write_to (e : event) : bool :=
  match e with EvWriteTo _ _ => true | _ => false end.
Definition count (p : event -> bool) (tr : list event) : nat :=
  length (List.filter p tr).

(** A textual address without a hyphen in it. *)
Fixpoint no_hyphen (s : string) : bool :=
  match s with
  | EmptyString => true
  | String c s =>
    negb (Ascii.eqb c (Ascii.Ascii true false true true false true false false))
    && no_hyphen s
  end.

(** The state of a backend that [RelayUDPData] reads. *)
Record proxyBackend : Type := {
  udpTimeout_ : Z;
  udpNatEntries : gmap string udpProxyEntry
}.

(** [getBackendProxy]; the outer [None] is an index out of range, the inner
    one the nil pointer. *)
Definition getBackendProxy (backends_ : list proxyBackend) (isUDP : bool)
  : option (option proxyBackend) :=
  let length := len backends_ in
  if 0 <? length then
    if negb isUDP then
      if length =? 1 then Some <$> index backends_ 0
      else Some <$> index backends_ 0
    else Some <$> index backends_ 0
  else Some None.

(** Effects of a worker of the proxy client: those of the backend it calls,
    and its own. *)
Inductive client_event : Type :=
| CBackend (e : event)
| CPutPayload
| CPutOOB
| CLogError (msg : string).

Definition is_put_payload (e : client_event) : bool :=
  match e with CPutPayload => true | _ => false end.
Definition is_put_oob (e : client_event) : bool :=
  match e with CPutOOB => true | _ => false end.
Definition is_backend (e : client_event) : bool :=
  match e with CBackend _ => true | _ => false end.

(** The effects of the backend among those of a worker. *)
Definition backend_events (tr : list client_event) : list event :=
  flat_map (fun e => match e with CBackend e => [e] | _ => [] end) tr.

(** [handleUDP].  [extract] is the outcome of
    [network.ExtractOrigDstFromUDP(oobLen, oob.Bytes())]; [buffer] is the
    payload buffer of the datagram, drawn from the pool [udpBuffer_], of
    which [bufSize] is the buffer size and [newBuffer] the next buffer it
    hands out.  The flag tells whether the worker panicked. *)
Definition handleUDP (env : udp_env) (extract : error + string)
    (backends_ : list proxyBackend) (bufSize : Z) (newBuffer buffer : list byte)
    (srcAddr : string) (dataLen : Z)
  : bool * list client_event :=
  match extract with
  | inl _ =>
    (false, [CPutOOB; CLogError "Failed to extract original dst from udp"; CPutPayload])
  | inr dstAddr =>
    match getBackendProxy backends_ true with
    | None => (true, [CPutOOB; CPutPayload])
    | Some None => (false, [CPutOOB; CLogError "Can not get backend proxy"; CPutPayload])
    | Some (Some backendProxy) =>
      let '(r, tr) :=
        RelayUDPData env (udpNatEntries backendProxy) (udpTimeout_ backendProxy)
          srcAddr dstAddr bufSize newBuffer buffer dataLen in
      match r with
      | Ok _ => (false, CPutOOB :: map CBackend tr ++ [CPutPayload])
      | Go.Err _ =>
        (false, CPutOOB :: map CBackend tr ++ [CLogError "Relay UDP failed"; CPutPayload])
      | Panic => (true, CPutOOB :: map CBackend tr ++ [CPutPayload])
      end
    end
  end.

End proxy_client.

(** ** package dns_proxy: the DNS server *)

Module dns_proxy.

(** *** github.com/miekg/dns, as far as the server looks into it *)

Definition ClassINET : Z := 1.
Definition TypeA : Z := 1.
Definition TypeCNAME : Z := 5.

Record dnsQuestion : Type := {
  Name : string;
  Qtype : Z;
  Qclass : Z
}.

Record RR_Header : Type := {
  h_Name : string;
  Rrtype : Z;
  Class : Z;
  Ttl : Z
}.

(** The dynamic type of a resource record: [*dns.A], [*dns.CNAME] or another
    one. *)
Inductive rdata : Type :=
| A (ip : list byte)
| CNAME (Target : string)
| OtherRR (raw : list byte).

Record RR : Type := {
  Header : RR_Header;
  Data : rdata
}.

Record Msg : Type := {
  Id : Z;
  Question : list dnsQuestion;
  Answer : list RR;
  Ns : list RR;
  Extra : list RR
}.

Definition set_Id (id : Z) (m : Msg) : Msg :=
  {| Id := id; Question := Question m; Answer := Answer m; Ns := Ns m; Extra := Extra m |}.

(** *** The server *)

(** A [*dns.Msg]. *)
Definition loc := nat.

Record dnsResolver : Type := {
  addr : string;
  (** the [Net] of its [*dns.Client] *)
  client : string
}.

Record dnsCacheEntry : Type := {
  response : loc;
  halfTtl : Time;
  ttl : Time
}.

Record DnsServer : Type := {
  localResolver : list dnsResolver;
  remoteResolver : list dnsResolver;
  sendNum : Z;
  (** [None] is the nil pointer: caching is off *)
  dnsCaches : option (gmap string dnsCacheEntry);
  timeout : Z
}.

Record DnsConfig : Type := {
  ListenAddr : string;
  LocalResolver : list string;
  ProxyResolver : list string;
  Cache : bool;
  SendNum : Z;
  Timeout : Z
}.

Inductive dns_event : Type :=
| EvWriteMsg (m : Msg)
| EvExchangeDNS (resolver : string) (data : list byte) (timeout : Z)
| EvExchangeContext (resolver : string)
| EvAddIp (name : string) (ip : list byte)
| EvAddDomain (name : string).

Definition is_write (e : dns_event) : bool :=
  match e with EvWriteMsg _ => true | _ => false end.
Definition is_exchange (e : dns_event) : bool :=
  match e with EvExchangeDNS _ _ _ => true | _ => false end.

(** The server, the messages its pointers refer to, the number of
    [time.Now()] calls made so far, and what it has done. *)
Record world : Type := {
  srv : DnsServer;
  heap : gmap loc Msg;
  next : loc;
  ticks : nat;
  log : list dns_event
}.

(** The collaborators of the server. *)
Record dns_env : Type := {
  (** the reading of the [k]-th call of [time.Now()] *)
  clock : nat -> Time;
  (** [rand.Int31n] at a positive argument *)
  Int31n : Z -> Z;
  (** [pacMgr.CheckDomain] *)
  CheckDomain : string -> bool;
  (** [r.Pack()] *)
  Pack : Msg -> error + list byte;
  (** [proxyClient.ExchangeDNS] *)
  ExchangeDNS : string -> list byte -> Z -> error + Msg;
  (** [resolver.client.ExchangeContext] *)
  ExchangeContext : Msg -> string -> error + Msg
}.

(** A handler is a state transformer that may panic ([None]). *)
Definition M (A : Type) : Type := world -> option A * world.
Definition ret {A} (a : A) : M A := fun w => (Some a, w).
Definition bind {A B} (m : M A) (k : A -> M B) : M B :=
  fun w => match m w with
           | (Some a, w') => k a w'
           | (None, w') => (None, w')
           end.
Definition panic {A} : M A := fun w => (None, w).

Notation "x <- m ;; k" := (bind m (fun x => k))
  (at level 62, m at next level, right associativity).
Notation "m ;;; k" := (bind m (fun _ => k))
  (at level 62, right associativity).

Definition with_srv (f : DnsServer -> DnsServer) : M unit :=
  fun w => (Some tt, {| srv := f (srv w); heap := heap w; next := next w;
                        ticks := ticks w; log := log w |}).
Definition with_heap (f : gmap loc Msg -> gmap loc Msg) : M unit :=
  fun w => (Some tt, {| srv := srv w; heap := f (heap w); next := next w;
                        ticks := ticks w; log := log w |}).
Definition emit (e : dns_event) : M unit :=
  fun w => (Some tt, {| srv := srv w; heap := heap w; next := next w;
                        ticks := ticks w; log := log w ++ [e] |}).
Definition time_Now (env : dns_env) : M Time :=
  fun w => (Some (clock env (ticks w)),
            {| srv := srv w; heap := heap w; next := next w;
               ticks := S (ticks w); log := log w |}).
(** A message that a library hands over lives at a new address. *)
Definition alloc (m : Msg) : M loc :=
  fun w => (Some (next w),
            {| srv := srv w; heap := <[next w := m]> (heap w); next := S (next w);
               ticks := ticks w; log := log w |}).
Definition get_srv : M DnsServer := fun w => (Some (srv w), w).
Definition deref (l : loc) : M Msg :=
  fun w => (heap w !! l, w).

Definition set_caches (caches : option (gmap string dnsCacheEntry)) (c : DnsServer) : DnsServer :=
  {| localResolver := localResolver c; remoteResolver := remoteResolver c;
     sendNum := sendNum c; dnsCaches := caches; timeout := timeout c |}.

Definition AddDnsCache (env : dns_env) (domain : string) (response : loc) (ttl : Z) : M unit :=
  c <- get_srv ;;
  match dnsCaches c with
  | Some caches =>
    t1 <- time_Now env ;;
    t2 <- time_Now env ;;
    with_srv (set_caches (Some (<[domain :=
      {| response := response;
         halfTtl := t1 + int64 (Z.shiftr ttl 1 * Second);
         ttl := t2 + int64 (ttl * Second) |}]> caches)))
  | None => ret tt
  end.

Definition DelDnsCache (domain : string) : M unit :=
  c <- get_srv ;;
  match dnsCaches c with
  | Some caches => with_srv (set_caches (Some (delete domain caches)))
  | None => ret tt
  end.

Definition GetDnsCache (env : dns_env) (domain : string) : M (option loc * bool) :=
  c <- get_srv ;;
  match dnsCaches c with
  | Some caches =>
    match caches !! domain with
    | Some res =>
      now <- time_Now env ;;
      if Before now (ttl res)
      then ret (Some (response res), After now (halfTtl res))
      else with_srv (set_caches (Some (delete domain caches))) ;;; ret (None, false)
    | None => ret (None, false)
    end
  | None => ret (None, false)
  end.

Definition make_resolver (a : string) : dnsResolver :=
  if Contains a ":" then {| addr := a; client := "udp" |}
  else {| addr := a +:+ ":53"; client := "udp" |}.

(** [pacMgr] and [routingMgr] are pointers; [None] is nil. *)
Definition StartDnsServer (dnsConfig : DnsConfig) (pacMgr routingMgr : option nat)
  : result DnsServer :=
  match routingMgr with
  | None => Err (New "Routing manager is nil")
  | Some _ =>
    match pacMgr with
    | None => Err (New "Pac list manager is nil")
    | Some _ =>
      let sendNum := int32 (SendNum dnsConfig) in
      Ok {| localResolver := map make_resolver (LocalResolver dnsConfig);
            remoteResolver := map make_resolver (ProxyResolver dnsConfig);
            sendNum := if sendNum <? 1 then 1 else sendNum;
            dnsCaches := if Cache dnsConfig then Some ∅ else None;
            timeout := int64 (int64 (Timeout dnsConfig) * Second) |}
    end
  end.

Definition Reload (dnsConfig : DnsConfig) (c : DnsServer) : DnsServer :=
  let sendNum := SendNum dnsConfig in
  let sendNum := if sendNum <? 1 then 1 else sendNum in
  {| localResolver := map make_resolver (LocalResolver dnsConfig);
     remoteResolver := map make_resolver (ProxyResolver dnsConfig);
     sendNum := int32 sendNum;
     dnsCaches :=
       if Cache dnsConfig
       then match dnsCaches c with None => Some ∅ | Some caches => Some caches end
       else None;
     timeout := timeout c |}.

(** [rand.Int31n(n)] panics unless [n] is positive. *)
Definition rand_Int31n (env : dns_env) (n : Z) : option Z :=
  if n <=? 0 then None else Some (Int31n env n).

Definition pick (env : dns_env) (resolvers : list dnsResolver) : option dnsResolver :=
  let length := len resolvers in
  if length =? 1 then index resolvers 0
  else match rand_Int31n env (int32 length) with
       | Some i => index resolvers i
       | None => None
       end.

Definition getResolver (env : dns_env) (bIsRemote : bool) : M dnsResolver :=
  fun w =>
    (if bIsRemote then pick env (remoteResolver (srv w))
     else pick env (localResolver (srv w)), w).

Fixpoint checkCache_loop (env : dns_env) (id : Z) (qs : list dnsQuestion)
  : M (option loc * bool) :=
  match qs with
  | [] => ret (None, false)
  | q :: qs =>
    if Qclass q =? ClassINET then
      hit <- GetDnsCache env (TrimSuffix (Name q) ".") ;;
      match hit.1 with
      | Some resDns => with_heap (alter (set_Id id) resDns) ;;; ret (Some resDns, hit.2)
      | None => checkCache_loop env id qs
      end
    else checkCache_loop env id qs
  end.

Definition checkCache (env : dns_env) (r : Msg) : M (option loc * bool) :=
  c <- get_srv ;;
  match dnsCaches c with
  | Some _ => checkCache_loop env (Id r) (Question r)
  | None => ret (None, false)
  end.

(** The first loop of [ServeDNS]: the name of the first question the policy
    list knows. *)
Fixpoint blacked (env : dns_env) (qs : list dnsQuestion) : option string :=
  match qs with
  | [] => None
  | q :: qs =>
    let name := TrimSuffix (Name q) "." in
    if CheckDomain env name then Some name else blacked env qs
  end.

(** The loop over the answers, from the state [(shouldAddCache, ttl)]. *)
Fixpoint scan_answers (answers : list RR) (st : bool * Z) : M (bool * Z) :=
  match answers with
  | [] => ret st
  | a :: answers =>
    if Class (Header a) =? ClassINET then
      let ttl := if st.2 <? Ttl (Header a) then Ttl (Header a) else st.2 in
      if Rrtype (Header a) =? TypeA then
        match Data a with
        | A ip =>
          emit (EvAddIp (TrimSuffix (h_Name (Header a)) ".") ip) ;;;
          scan_answers answers (true, ttl)
        | _ => panic
        end
      else if Rrtype (Header a) =? TypeCNAME then
        match Data a with
        | CNAME target =>
          emit (EvAddDomain (TrimSuffix target ".")) ;;;
          scan_answers answers (st.1, ttl)
        | _ => panic
        end
      else scan_answers answers (st.1, ttl)
    else scan_answers answers st
  end.

Definition WriteMsg (l : loc) : M unit :=
  m <- deref l ;; emit (EvWriteMsg m).

(** The filter chain is a hook that answers nothing yet. *)
Definition applyFilterChain (r : Msg) : option Msg := None.

Definition ServeDNS (env : dns_env) (r : Msg) : M unit :=
  match applyFilterChain r with
  | Some resDns => emit (EvWriteMsg resDns)
  | None =>
  match blacked env (Question r) with
  | Some domainName =>
    hit <- checkCache env r ;;
    bWriteBack <- match hit.1 with
                  | Some resDns => WriteMsg resDns ;;; ret true
                  | None => ret false
                  end ;;
    if bWriteBack && negb hit.2 then ret tt
    else
      resolver <- getResolver env true ;;
      match Pack env r with
      | inl _ => ret tt
      | inr data =>
        c <- get_srv ;;
        emit (EvExchangeDNS (addr resolver) data (timeout c)) ;;;
        match ExchangeDNS env (addr resolver) data (timeout c) with
        | inl _ => ret tt
        | inr answer =>
          resDns <- alloc (set_Id (Id r) answer) ;;
          st <- scan_answers (Answer answer) (false, 0) ;;
          c <- get_srv ;;
          (if st.1 && bool_decide (dnsCaches c <> None)
           then AddDnsCache env domainName resDns st.2
           else ret tt) ;;;
          if negb bWriteBack then WriteMsg resDns else ret tt
        end
      end
  | None =>
    resolver <- getResolver env false ;;
    emit (EvExchangeContext (addr resolver)) ;;;
    match ExchangeContext env r (addr resolver) with
    | inl _ => ret tt
    | inr response_ => emit (EvWriteMsg response_)
    end
  end
  end.

(** Every entry of the cache of [c'] is an entry of the cache of [c], with
    the same pointer and the same deadlines. *)
Definition entries_kept (c c' : DnsServer) : Prop :=
  match dnsCaches c' with
  | Some caches' =>
    exists caches, dnsCaches c = Some caches
      /\ forall domain e, caches' !! domain = Some e -> caches !! domain = Some e
  | None => True
  end.

(** The same messages live at the same addresses, up to their [Id]. *)
Definition messages_kept (h h' : gmap loc Msg) : Prop :=
  forall l, match h' !! l with
            | Some m' => exists m, h !! l = Some m /\ m' = set_Id (Id m') m
            | None => h !! l = None
            end.

(** Events that are neither a reply to the client nor an exchange through
    the tunnel. *)
Definition no_reply (evs : list dns_event) : bool :=
  forallb (fun e => negb (is_write e) && negb (is_exchange e)) evs.

(** A world with nothing in it but the server. *)
Definition boot (c : DnsServer) : world :=
  {| srv := c; heap := ∅; next := 0%nat; ticks := 0%nat; log := [] |}.

(** *** What the loop over the answers computes *)

(** The dynamic type of a record is the one its [Rrtype] announces, for the
    two types the server looks into. *)
Definition rr_typed (a : RR) : bool :=
  if Rrtype (Header a) =? TypeA then
    match Data a with A _ => true | _ => false end
  else if Rrtype (Header a) =? TypeCNAME then
    match Data a with CNAME _ => true | _ => false end
  else true.

Definition is_inet_A (a : RR) : bool :=
  (Class (Header a) =? ClassINET) && (Rrtype (Header a) =? TypeA).

(** The greatest TTL among the records of class INET, and [t] at least. *)
Definition max_ttl (answers : list RR) (t : Z) : Z :=
  fold_left (fun t a => if Class (Header a) =? ClassINET
                        then Z.max t (Ttl (Header a)) else t) answers t.

(** What a record of class INET tells the routing map or the policy list. *)
Definition routing_update (a : RR) : list dns_event :=
  if Class (Header a) =? ClassINET then
    match Data a with
    | A ip =>
      if Rrtype (Header a) =? TypeA
      then [EvAddIp (TrimSuffix (h_Name (Header a)) ".") ip] else []
    | CNAME target =>
      if negb (Rrtype (Header a) =? TypeA) && (Rrtype (Header a) =? TypeCNAME)
      then [EvAddDomain (TrimSuffix target ".")] else []
    | OtherRR _ => []
    end
  else [].

(** The world with more in its log, and with more calls of [time.Now()]
    behind it. *)
Definition logged (evs : list dns_event) (w : world) : world :=
  {| srv := srv w; heap := heap w; next := next w; ticks := ticks w;
     log := log w ++ evs |}.
Definition ticked (n : nat) (w : world) : world :=
  {| srv := srv w; heap := heap w; next := next w; ticks := (n + ticks w)%nat;
     log := log w |}.

(** The world after a proxied query that missed the cache was answered
    through the tunnel. *)
Definition after_upstream (env : dns_env) (r : Msg) (domainName : string)
    (resolver : dnsResolver) (data : list byte) (answer : Msg) (w1 : world) : world :=
  let resDns := next w1 in
  let w3 :=
    {| srv := srv w1;
       heap := <[resDns := set_Id (Id r) answer]> (heap w1);
       next := S resDns; ticks := ticks w1;
       log := (log w1 ++ [EvExchangeDNS (addr resolver) data (timeout (srv w1))])
              ++ flat_map routing_update (Answer answer) |} in
  let w5 :=
    if existsb is_inet_A (Answer answer) && bool_decide (dnsCaches (srv w1) <> None)
    then (AddDnsCache env domainName resDns (max_ttl (Answer answer) 0) w3).2
    else w3 in
  logged [EvWriteMsg (set_Id (Id r) answer)] w5.

End dns_proxy.

(** ** Concrete calls *)

Module examples.
Import Byte.

(** The header of [8.8.8.8:53]. *)
Definition resolver_header : list byte := [x01; x08; x08; x08; x08; x00; x35].

(** A DNS exchange in which the tunnel hands back the header followed by a
    two-byte body. *)
Definition dns_reply_env : proxy_client.dns_env :=
  {| proxy_client.dns_convert := fun _ => inr resolver_header;
     proxy_client.dns_listen := inr 3%nat;
     proxy_client.dns_write := None;
     proxy_client.dns_read := inr (resolver_header ++ [xaa; xbb]) |}.

Definition dns_reply : result (list byte) :=
  (proxy_client.RelayDNS dns_reply_env ∅ "192.168.1.5:40000" "8.8.8.8:53"
     [x12; x34] (replicate 64 x00)).1.1.

(** The same datagram on the reader task of a UDP flow to [8.8.8.8:53]. *)
Definition udp_flow : proxy_client.udpProxyEntry :=
  {| proxy_client.src_ := 4%nat; proxy_client.dst_ := 5%nat;
     proxy_client.srcAddr_ := "192.168.1.5:40000";
     proxy_client.header_ := resolver_header;
     proxy_client.timeout := 60 * Second |}.

Definition udp_env : proxy_client.udp_env :=
  {| proxy_client.udp_listen := inr 5%nat;
     proxy_client.udp_dial := inr 4%nat;
     proxy_client.udp_convert := fun _ => inr resolver_header;
     proxy_client.udp_write := None |}.

(** A datagram of 16 bytes relayed with a pool of 16-byte buffers. *)
Definition udp_full_payload : result unit * list proxy_client.event :=
  proxy_client.RelayUDPData udp_env ∅ (60 * Second)
    "192.168.1.5:40000" "8.8.8.8:53" 16 (replicate 16 x00) (replicate 16 xaa) 16.

(** A flow is set up, [Stop] runs while its reader is copying, and the
    reader then winds up. *)
Definition stop_while_copying : list proxy_client.action :=
  [proxy_client.ASpawn "192.168.1.5:40000->8.8.8.8:53"; proxy_client.AAdd 0;
   proxy_client.AStop;
   proxy_client.ADel 0; proxy_client.ACloseSrc 0; proxy_client.ACloseDst 0].

(** The same flow without [Stop]. *)
Definition reader_times_out : list proxy_client.action :=
  [proxy_client.ASpawn "192.168.1.5:40000->8.8.8.8:53"; proxy_client.AAdd 0;
   proxy_client.ADel 0; proxy_client.ACloseSrc 0; proxy_client.ACloseDst 0].

(** A relay whose mux transport has no stream to give. *)
Definition tcp_env : proxy_client.tcp_env :=
  {| proxy_client.tcp_convert := inr [x01; x5d; xb8; xd8; x22; x00; x50];
     proxy_client.tcp_kcp_get := inl (Ext 1);
     proxy_client.tcp_kcp_write := None;
     proxy_client.tcp_kcp_up := (0, None);
     proxy_client.tcp_kcp_down := (0, None);
     proxy_client.tcp_dial := inr 6%nat;
     proxy_client.tcp_write := None;
     proxy_client.tcp_up := (120, None);
     proxy_client.tcp_down := (4096, Some (Ext 2)) |}.

(** The copy phase in which the spawned task finishes its copy first and
    the one in which the caller does, every other step in program order. *)
Definition spawned_first : proxy_client.relay_state :=
  hd proxy_client.relay_init
     (rev (proxy_client.relay_after (4096, Some (Ext 2)) (120, None) 9
             proxy_client.relay_init)).
Definition caller_first : proxy_client.relay_state :=
  hd proxy_client.relay_init
     (proxy_client.relay_after (4096, Some (Ext 2)) (120, None) 9
        proxy_client.relay_init).

(** The answer to a query for [example.com]: one A record, TTL 300. *)
Definition example_answer : dns_proxy.Msg :=
  {| dns_proxy.Id := 7;
     dns_proxy.Question :=
       [{| dns_proxy.Name := "example.com."; dns_proxy.Qtype := 1; dns_proxy.Qclass := 1 |}];
     dns_proxy.Answer :=
       [{| dns_proxy.Header :=
             {| dns_proxy.h_Name := "example.com."; dns_proxy.Rrtype := 1;
                dns_proxy.Class := 1; dns_proxy.Ttl := 300 |};
           dns_proxy.Data := dns_proxy.A [x5d; xb8; xd8; x22] |}];
     dns_proxy.Ns := [];
     dns_proxy.Extra := [] |}.

Definition example_query (id : Z) : dns_proxy.Msg :=
  {| dns_proxy.Id := id;
     dns_proxy.Question :=
       [{| dns_proxy.Name := "example.com."; dns_proxy.Qtype := 1; dns_proxy.Qclass := 1 |}];
     dns_proxy.Answer := []; dns_proxy.Ns := []; dns_proxy.Extra := [] |}.

Definition example_config (sendNum : Z) : dns_proxy.DnsConfig :=
  {| dns_proxy.ListenAddr := "0.0.0.0:53";
     dns_proxy.LocalResolver := ["192.168.1.1"];
     dns_proxy.ProxyResolver := ["8.8.8.8"; "1.1.1.1:53"];
     dns_proxy.Cache := true;
     dns_proxy.SendNum := sendNum;
     dns_proxy.Timeout := 5 |}.

(** A server whose cache holds that answer, stored at second 1000: half
    of its life is over at second 1150, all of it at second 1300. *)
Definition example_server : dns_proxy.DnsServer :=
  {| dns_proxy.localResolver := [{| dns_proxy.addr := "192.168.1.1:53"; dns_proxy.client := "udp" |}];
     dns_proxy.remoteResolver :=
       [{| dns_proxy.addr := "8.8.8.8:53"; dns_proxy.client := "udp" |};
        {| dns_proxy.addr := "1.1.1.1:53"; dns_proxy.client := "udp" |}];
     dns_proxy.sendNum := 1;
     dns_proxy.dnsCaches :=
       Some {[ "example.com" :=
                 {| dns_proxy.response := 0%nat;
                    dns_proxy.halfTtl := 1150 * Second;
                    dns_proxy.ttl := 1300 * Second |} ]};
     dns_proxy.timeout := 5 * Second |}.

Definition example_world : dns_proxy.world :=
  {| dns_proxy.srv := example_server;
     dns_proxy.heap := {[ 0%nat := example_answer ]};
     dns_proxy.next := 1%nat;
     dns_proxy.ticks := 0%nat;
     dns_proxy.log := [] |}.

(** Collaborators: the clock stands at [now], the policy list knows
    [example.com], every query packs to two bytes, and the tunnel answers
    with [example_answer]. *)
Definition example_env (now : Time) : dns_proxy.dns_env :=
  {| dns_proxy.clock := fun _ => now;
     dns_proxy.Int31n := fun n => n - 1;
     dns_proxy.CheckDomain := fun name => String.eqb name "example.com";
     dns_proxy.Pack := fun _ => inr [x12; x34];
     dns_proxy.ExchangeDNS := fun _ _ _ => inr example_answer;
     dns_proxy.ExchangeContext := fun _ _ => inr example_answer |}.

(** The same server after a reload that left it without remote resolvers. *)
Definition no_remote_world : dns_proxy.world :=
  {| dns_proxy.srv :=
       dns_proxy.Reload
         {| dns_proxy.ListenAddr := "0.0.0.0:53";
            dns_proxy.LocalResolver := ["192.168.1.1"];
            dns_proxy.ProxyResolver := [];
            dns_proxy.Cache := true;
            dns_proxy.SendNum := 1;
            dns_proxy.Timeout := 5 |} example_server;
     dns_proxy.heap := {[ 0%nat := example_answer ]};
     dns_proxy.next := 1%nat;
     dns_proxy.ticks := 0%nat;
     dns_proxy.log := [] |}.

(** A DNS exchange in which the tunnel hands back the header and nothing
    after it. *)
Definition dns_short_env : proxy_client.dns_env :=
  {| proxy_client.dns_convert := fun _ => inr resolver_header;
     proxy_client.dns_listen := inr 3%nat;
     proxy_client.dns_write := None;
     proxy_client.dns_read := inr resolver_header |}.

(** A server that caches and has nothing cached yet. *)
Definition miss_world : dns_proxy.world :=
  {| dns_proxy.srv :=
       dns_proxy.set_caches (Some ∅) example_server;
     dns_proxy.heap := ∅;
     dns_proxy.next := 0%nat;
     dns_proxy.ticks := 0%nat;
     dns_proxy.log := [] |}.

(** The same collaborators with a tunnel that gives no answer. *)
Definition silent_env (now : Time) : dns_proxy.dns_env :=
  {| dns_proxy.clock := fun _ => now;
     dns_proxy.Int31n := fun n => n - 1;
     dns_proxy.CheckDomain := fun name => String.eqb name "example.com";
     dns_proxy.Pack := fun _ => inr [x12; x34];
     dns_proxy.ExchangeDNS := fun _ _ _ => inl (Ext 3);
     dns_proxy.ExchangeContext := fun _ _ => inl (Ext 4) |}.

(** A query for a name the policy list does not know. *)
Definition lan_query : dns_proxy.Msg :=
  {| dns_proxy.Id := 77;
     dns_proxy.Question :=
       [{| dns_proxy.Name := "intra.lan."; dns_proxy.Qtype := 1; dns_proxy.Qclass := 1 |}];
     dns_proxy.Answer := []; dns_proxy.Ns := []; dns_proxy.Extra := [] |}.

End examples.

(** * Properties *)

(** ** Slices *)

Module slice_facts.

Lemma len_nonneg {A} (s : list A) : 0 <= len s.
Proof. unfold len. lia. Qed.

Lemma len_app {A} (s t : list A) : len (s ++ t) = len s + len t.
Proof. unfold len. rewrite length_app. lia. Qed.

Lemma len_replicate {A} (n : nat) (x : A) : len (replicate n x) = Z.of_nat n.
Proof. unfold len. now rewrite length_replicate. Qed.

Lemma copy_length {A} (dst src : list A) : length (copy dst src) = length dst.
Proof.
  unfold copy. rewrite length_app, length_take, length_drop. lia.
Qed.

Lemma len_copy {A} (dst src : list A) : len (copy dst src) = len dst.
Proof. unfold len. now rewrite copy_length. Qed.

(** A source that is not longer than the destination lands whole at the
    front. *)
Lemma copy_short {A} (dst src : list A) :
  (length src <= length dst)%nat -> copy dst src = src ++ drop (length src) dst.
Proof.
  intros H. unfold copy. now rewrite take_ge by lia.
Qed.

(** A source that is not shorter than the destination fills it. *)
Lemma copy_long {A} (dst src : list A) :
  (length dst <= length src)%nat -> copy dst src = take (length dst) src.
Proof.
  intros H. unfold copy. rewrite drop_ge by lia. apply app_nil_r.
Qed.

Lemma copy_at_length {A} (s : list A) lo src s' :
  copy_at s lo src = Some s' -> length s' = length s.
Proof.
  unfold copy_at. destruct (_ && _) eqn:E; [|discriminate].
  intros [= <-]. apply andb_true_iff in E as [E1 E2].
  apply Z.leb_le in E1, E2. unfold len in E2.
  rewrite length_app, copy_length, length_take, length_drop. lia.
Qed.

Lemma slice_Some {A} (s : list A) lo hi :
  0 <= lo -> lo <= hi -> hi <= len s ->
  slice s lo hi = Some (take (Z.to_nat (hi - lo)) (drop (Z.to_nat lo) s)).
Proof.
  intros H1 H2 H3. unfold slice.
  now rewrite (proj2 (Z.leb_le _ _) H1), (proj2 (Z.leb_le _ _) H2),
    (proj2 (Z.leb_le _ _) H3).
Qed.

Lemma copy_at_Some {A} (s : list A) lo src :
  0 <= lo -> lo <= len s ->
  copy_at s lo src = Some (take (Z.to_nat lo) s ++ copy (drop (Z.to_nat lo) s) src).
Proof.
  intros H1 H2. unfold copy_at.
  now rewrite (proj2 (Z.leb_le _ _) H1), (proj2 (Z.leb_le _ _) H2).
Qed.

(** The bytes [[lo, n)] of a buffer that a datagram was read into are those
    of the datagram, as long as [n] bytes were stored. *)
Lemma read_tail (buf dgram : list byte) (lo n : nat) :
  n = Nat.min (length dgram) (length buf) ->
  take (n - lo) (drop lo (copy buf dgram)) = take (n - lo) (drop lo dgram).
Proof.
  intros Hn.
  assert (Hd : (n <= length dgram)%nat) by (subst n; apply Nat.le_min_l).
  assert (Hb : (n <= length buf)%nat) by (subst n; apply Nat.le_min_r).
  clear Hn. unfold copy.
  destruct (Nat.le_gt_cases n lo) as [Hlo | Hlo].
  - replace (n - lo)%nat with O by lia. reflexivity.
  - rewrite !take_drop_commute. f_equal.
    replace (lo + (n - lo))%nat with n by lia.
    rewrite take_app_le by (rewrite length_take; lia).
    rewrite take_take. f_equal. lia.
Qed.

End slice_facts.

(** ** The tunnel backend *)

Module backend_facts.
Import slice_facts.
Import proxy_client.

(** *** RelayDNS *)

(** What [RelayDNS] returns once the query went out and a datagram came
    back: an error for a datagram that is not longer than the header, and
    otherwise a slice as long as the datagram, with the bytes after the
    header at its front and zeroes behind them. *)
Lemma RelayDNS_after_read env nat_ srcAddr dnsAddr data buffer addrBytes dgram :
  dns_convert env dnsAddr = inr addrBytes ->
  len addrBytes + len data <= len buffer ->
  (is_Some (nat_ !! srcAddr) \/ exists c, dns_listen env = inr c) ->
  dns_write env = None ->
  dns_read env = inr dgram ->
  let n := Z.min (len dgram) (len buffer) in
  (RelayDNS env nat_ srcAddr dnsAddr data buffer).1.1 =
    if n <=? len addrBytes then Go.Err (New "Read DNS query empty")
    else Ok (take (Z.to_nat (n - len addrBytes)) (drop (Z.to_nat (len addrBytes)) dgram)
             ++ replicate (Z.to_nat (len addrBytes)) Byte.x00).
Proof.
  intros Hconv Hfit Hsock Hwrite Hread n.
  pose proof (len_nonneg addrBytes) as Ha.
  pose proof (len_nonneg data) as Hd.
  unfold RelayDNS. rewrite Hconv. cbv zeta.
  rewrite copy_at_Some by (rewrite ?len_copy; lia).
  set (buffer2 := take _ _ ++ _).
  assert (Hlen2 : len buffer2 = len buffer).
  { unfold len. f_equal. subst buffer2.
    rewrite length_app, copy_length, length_take, length_drop, copy_length.
    unfold len in *. lia. }
  set (found := match nat_ !! srcAddr with Some _ => _ | None => _ end).
  assert (Hfound : exists c nat1 evs, found = inr (c, nat1, evs)).
  { subst found. destruct (nat_ !! srcAddr) as [c|] eqn:E; [eauto|].
    destruct Hsock as [[c Hc] | [c Hc]]; [discriminate|]. rewrite Hc. eauto. }
  destruct Hfound as (c & nat1 & evs & ->).
  rewrite slice_Some by lia.
  rewrite Hwrite, Hread. unfold read_into.
  rewrite Hlen2. fold n.
  destruct (n <=? len addrBytes) eqn:En; [reflexivity|].
  apply Z.leb_gt in En.
  assert (Hn1 : n <= len dgram) by apply Z.le_min_l.
  assert (Hn2 : n <= len buffer) by apply Z.le_min_r.
  unfold make. rewrite (proj2 (Z.ltb_ge _ _)) by lia.
  rewrite slice_Some by (rewrite ?len_copy; lia).
  cbn [fst]. f_equal.
  assert (Hnat : Z.to_nat n = Nat.min (length dgram) (length buffer2)).
  { subst n. unfold len in *. rewrite <- Nat2Z.inj_min, Nat2Z.id.
    f_equal. lia. }
  rewrite Z2Nat.inj_sub by lia.
  rewrite (read_tail buffer2 dgram _ _ Hnat).
  rewrite copy_short.
  - f_equal. rewrite length_take, length_drop, drop_replicate.
    f_equal. unfold len in *. lia.
  - rewrite length_take, length_replicate. lia.
Qed.

(** On the reader task of a UDP flow the same datagram is forwarded as its
    two-byte body. *)
Example copyFromRemote_strips_header :
  copyFromRemote examples.udp_flow (replicate 64 Byte.x00)
    [(examples.resolver_header ++ [Byte.xaa; Byte.xbb], None)] (Ext 7)
  = (Some (Ext 7),
     [EvSetReadDeadline 5%nat; EvReadFrom 5%nat;
      EvWriteTo 4%nat [Byte.xaa; Byte.xbb];
      EvSetReadDeadline 5%nat; EvReadFrom 5%nat]).
Proof. reflexivity. Qed.

(** C1, at a datagram of nine bytes behind a header of seven: the response
    that [RelayDNS] returns is nine bytes long, the two bytes after the
    header followed by seven zero bytes, and not the two-byte tail. *)
Theorem RelayDNS_response_is_padded :
  examples.dns_reply
    = Ok ([Byte.xaa; Byte.xbb] ++ replicate 7 Byte.x00)
  /\ examples.dns_reply <> Ok [Byte.xaa; Byte.xbb].
Proof.
  assert (H : examples.dns_reply = Ok ([Byte.xaa; Byte.xbb] ++ replicate 7 Byte.x00))
    by (vm_compute; reflexivity).
  split; [exact H|]. rewrite H. discriminate.
Qed.

(** *** RelayUDPData *)

Lemma udp_entry_no_pool env nat_ srcAddr dstAddr udpTimeout udpProxy tr :
  udp_entry env nat_ srcAddr dstAddr udpTimeout = inr (udpProxy, tr) ->
  pool_events tr = [].
Proof.
  unfold udp_entry.
  destruct (nat_ !! _); [intros [= _ <-]; reflexivity|].
  destruct (udp_listen env); [discriminate|].
  destruct (udp_dial env); [discriminate|].
  destruct (createUDPProxyEntry _ _ _ _ _ _); [discriminate|].
  intros [= _ <-]. reflexivity.
Qed.

Lemma pool_events_send env udpProxy bufSize newBuffer data dataLen :
  pool_events (udp_send env udpProxy bufSize newBuffer data dataLen).2 =
    if bufSize <? len (header_ udpProxy) + dataLen
    then [EvAlloc (len (header_ udpProxy) + dataLen)]
    else [EvPoolGet; EvPoolPut].
Proof.
  unfold udp_send.
  destruct (bufSize <? _).
  - destruct (make _); [|reflexivity].
    destruct (slice l 0 _); [|reflexivity].
    destruct (slice data 0 _); [|reflexivity].
    destruct (copy_at _ _ _); [|reflexivity].
    destruct (udp_write env); reflexivity.
  - destruct (slice data 0 _); [|reflexivity].
    destruct (copy_at _ _ _); [|reflexivity].
    destruct (slice _ 0 _); [|reflexivity].
    destruct (udp_write env); reflexivity.
Qed.

Lemma pool_events_RelayUDPData
    env nat_ udpTimeout srcAddr dstAddr bufSize newBuffer data dataLen udpProxy tr0 :
  udp_entry env nat_ srcAddr dstAddr udpTimeout = inr (udpProxy, tr0) ->
  pool_events
    (RelayUDPData env nat_ udpTimeout srcAddr dstAddr bufSize newBuffer data dataLen).2
  = if bufSize <? len (header_ udpProxy) + dataLen
    then [EvAlloc (len (header_ udpProxy) + dataLen)]
    else [EvPoolGet; EvPoolPut].
Proof.
  intros H. unfold RelayUDPData. rewrite H.
  pose proof (pool_events_send env udpProxy bufSize newBuffer data dataLen) as Hs.
  destruct (udp_send _ _ _ _ _ _) as [r tr']. cbn [snd] in *.
  unfold pool_events in *. rewrite List.filter_app.
  fold (pool_events tr0). rewrite (udp_entry_no_pool _ _ _ _ _ _ _ H).
  exact Hs.
Qed.

(** C2, as the code has it: once the entry of the flow is there, the send
    borrows one buffer from the pool and gives it back when header and
    payload together are not longer than a pool buffer, and allocates one
    buffer of their joint length, leaving the pool alone, when they are
    longer; so a payload as long as a pool buffer, behind a header that is
    not empty, is sent from an allocated buffer. *)
Theorem RelayUDPData_pool_discipline
    env nat_ udpTimeout srcAddr dstAddr bufSize newBuffer data dataLen udpProxy tr0 :
  udp_entry env nat_ srcAddr dstAddr udpTimeout = inr (udpProxy, tr0) ->
  let tr :=
    (RelayUDPData env nat_ udpTimeout srcAddr dstAddr bufSize newBuffer data dataLen).2 in
  let totalLen := len (header_ udpProxy) + dataLen in
  (totalLen <= bufSize -> pool_events tr = [EvPoolGet; EvPoolPut])
  /\ (bufSize < totalLen -> pool_events tr = [EvAlloc totalLen])
  /\ (dataLen = bufSize -> header_ udpProxy <> [] -> pool_events tr = [EvAlloc totalLen]).
Proof.
  intros H tr totalLen. subst tr totalLen.
  rewrite (pool_events_RelayUDPData _ _ _ _ _ _ _ _ _ _ _ H).
  split; [|split].
  - intros Hle. now rewrite (proj2 (Z.ltb_ge _ _) Hle).
  - intros Hlt. now rewrite (proj2 (Z.ltb_lt _ _) Hlt).
  - intros -> Hne.
    assert (0 < len (header_ udpProxy)).
    { destruct (header_ udpProxy); [congruence|]. unfold len. cbn [length]. lia. }
    rewrite (proj2 (Z.ltb_lt _ _)) by lia. reflexivity.
Qed.

Lemma RelayUDPData_pool_discipline_witness :
  udp_entry examples.udp_env ∅ "192.168.1.5:40000" "8.8.8.8:53" (60 * Second)
    = inr (examples.udp_flow, [EvListenPacket 5%nat; EvDialTransparentUDP 4%nat;
             EvSpawnReader "192.168.1.5:40000->8.8.8.8:53" examples.udp_flow])
  /\ pool_events
       (RelayUDPData examples.udp_env ∅ (60 * Second) "192.168.1.5:40000" "8.8.8.8:53"
          64 (replicate 64 Byte.x00) (replicate 64 Byte.xaa) 57).2
     = [EvPoolGet; EvPoolPut].
Proof.
  split; [reflexivity|].
  exact (proj1 (RelayUDPData_pool_discipline examples.udp_env ∅ (60 * Second)
           "192.168.1.5:40000" "8.8.8.8:53" 64 (replicate 64 Byte.x00)
           (replicate 64 Byte.xaa) 57 examples.udp_flow _ eq_refl)
         ltac:(vm_compute; discriminate)).
Defined.

(** C2 fails as stated: a payload as long as a pool buffer, behind a header
    of seven bytes, is sent from a buffer allocated for it, and the pool is
    not touched. *)
Lemma RelayUDPData_full_payload_is_one_shot :
  examples.udp_full_payload.1 = Ok tt
  /\ pool_events examples.udp_full_payload.2 = [EvAlloc 23]
  /\ existsb is_pool_get examples.udp_full_payload.2 = false.
Proof. vm_compute. repeat split. Qed.

(** *** Life cycle of the UDP NAT entries *)

Lemma reader_step_Some b i at_ f g b' :
  reader_step b i at_ f g = Some b' ->
  exists e, created b !! i = Some e /\ ne_pc e = at_
    /\ b' = {| udpNatMap_ := g (ne_key e) (udpNatMap_ b);
               created := <[i := f e]> (created b) |}.
Proof.
  unfold reader_step. destruct (created b !! i) as [e|]; [|discriminate].
  destruct (decide _) as [E|]; [|discriminate].
  intros [= <-]. eauto.
Qed.

Ltac reader_moves H e He Hpc :=
  apply reader_step_Some in H as (e & He & Hpc & ->).

Lemma nat_step_inv a b b' : nat_step a b = Some b' -> nat_inv b -> nat_inv b'.
Proof.
  intros H Hinv. destruct a as [key | i | i | i | i | ]; cbn in H.
  - injection H as <-. intros k i Hk. cbn in *.
    destruct (Hinv k i Hk) as (e & He & Hrest).
    exists e. split; [|exact Hrest]. now apply lookup_app_l_Some.
  - reader_moves H e He Hpc. intros k j Hk. cbn in *.
    assert (Hi : (i < length (created b))%nat) by (eapply lookup_lt_Some; eauto).
    destruct (decide (ne_key e = k)) as [<- | Hne].
    + rewrite lookup_insert_eq in Hk. injection Hk as <-.
      exists (set_pc RCopying e). now rewrite list_lookup_insert_eq.
    + rewrite lookup_insert_ne in Hk by exact Hne.
      destruct (Hinv k j Hk) as (e' & He' & Hk' & Hp').
      assert (j <> i) by (intros ->; congruence).
      exists e'. now rewrite list_lookup_insert_ne.
  - reader_moves H e He Hpc. intros k j Hk. cbn in *.
    destruct (decide (ne_key e = k)) as [<- | Hne].
    + now rewrite lookup_delete_eq in Hk.
    + rewrite lookup_delete_ne in Hk by exact Hne.
      destruct (Hinv k j Hk) as (e' & He' & Hk' & Hp').
      assert (j <> i) by (intros ->; congruence).
      exists e'. now rewrite list_lookup_insert_ne.
  - reader_moves H e He Hpc. intros k j Hk. cbn in *.
    destruct (Hinv k j Hk) as (e' & He' & Hk' & Hp').
    assert (j <> i) by (intros ->; congruence).
    exists e'. now rewrite list_lookup_insert_ne.
  - reader_moves H e He Hpc. intros k j Hk. cbn in *.
    destruct (Hinv k j Hk) as (e' & He' & Hk' & Hp').
    assert (j <> i) by (intros ->; congruence).
    exists e'. now rewrite list_lookup_insert_ne.
  - injection H as <-. intros k i Hk. cbn in *.
    destruct (Hinv k i Hk) as (e & He & Hk' & Hp').
    exists (stop_entry (udpNatMap_ b) i e).
    rewrite list_lookup_imap, He. split; [reflexivity|].
    unfold stop_entry. destruct (decide _); cbn; auto.
Qed.

Lemma nat_step_closed_by_reader_only a b b' :
  is_stop a = false -> nat_step a b = Some b' ->
  closed_by_reader_only b -> closed_by_reader_only b'.
Proof.
  intros Hns H Hc.
  assert (Hupd : forall i e f,
    created b !! i = Some e ->
    ne_src_closes (f e) = src_closes_at (ne_pc (f e)) ->
    ne_dst_closes (f e) = dst_closes_at (ne_pc (f e)) ->
    forall j e', <[i := f e]> (created b) !! j = Some e' ->
      ne_src_closes e' = src_closes_at (ne_pc e')
      /\ ne_dst_closes e' = dst_closes_at (ne_pc e')).
  { intros i e f He Hs Hd j e' Hj.
    destruct (decide (i = j)) as [<- | Hne].
    - rewrite list_lookup_insert_eq in Hj by (eapply lookup_lt_Some; eauto).
      injection Hj as <-. auto.
    - rewrite list_lookup_insert_ne in Hj by exact Hne. now apply (Hc j). }
  destruct a as [key | i | i | i | i | ]; cbn in H; try discriminate Hns.
  - injection H as <-. intros j e' Hj. cbn in Hj.
    apply lookup_app_Some in Hj as [Hj | [_ Hj]]; [now apply (Hc j)|].
    destruct (j - length (created b))%nat; [|destruct n; discriminate].
    injection Hj as <-. split; reflexivity.
  - reader_moves H e He Hpc. destruct (Hc i e He) as [Hs Hd].
    rewrite Hpc in *. intros j e'. cbn.
    apply (Hupd i e (set_pc RCopying)); cbn; assumption.
  - reader_moves H e He Hpc. destruct (Hc i e He) as [Hs Hd].
    rewrite Hpc in *. intros j e'. cbn.
    apply (Hupd i e (set_pc RDeleted)); cbn; assumption.
  - reader_moves H e He Hpc. destruct (Hc i e He) as [Hs Hd].
    rewrite Hpc in *. intros j e'. cbn.
    apply (Hupd i e (fun e => set_pc RSrcClosed (close_src e))); cbn;
      [exact He | now rewrite Hs | exact Hd].
  - reader_moves H e He Hpc. destruct (Hc i e He) as [Hs Hd].
    rewrite Hpc in *. intros j e'. cbn.
    apply (Hupd i e (fun e => set_pc RDone (close_dst e))); cbn;
      [exact He | exact Hs | now rewrite Hd].
Qed.

Lemma nat_run_inv tr b b' : nat_run tr b = Some b' -> nat_inv b -> nat_inv b'.
Proof.
  revert b. induction tr as [|a tr IH]; intros b H Hinv; cbn in H.
  - now injection H as <-.
  - destruct (nat_step a b) as [b1|] eqn:E; [|discriminate].
    eapply IH; [exact H|]. eapply nat_step_inv; eauto.
Qed.

Lemma nat_run_closed_by_reader_only tr b b' :
  forallb (fun a => negb (is_stop a)) tr = true ->
  nat_run tr b = Some b' ->
  closed_by_reader_only b -> closed_by_reader_only b'.
Proof.
  revert b. induction tr as [|a tr IH]; intros b Hns H Hc; cbn in H.
  - now injection H as <-.
  - cbn in Hns. apply andb_true_iff in Hns as [Ha Hns].
    apply negb_true_iff in Ha.
    destruct (nat_step a b) as [b1|] eqn:E; [|discriminate].
    eapply IH; [exact Hns | exact H|].
    eapply nat_step_closed_by_reader_only; eauto.
Qed.

Lemma fresh_backend_inv : nat_inv fresh_backend.
Proof. intros k i H. cbn in H. now rewrite lookup_empty in H. Qed.

Lemma fresh_backend_closed : closed_by_reader_only fresh_backend.
Proof. intros i e H. cbn in H. discriminate. Qed.

(** C4, as the code has it: in every run in which [Stop] takes no part,
    each socket of each NAT entry has been closed once when the reader of
    the entry is through, has not been closed before, and the entry is out
    of the map by the time the first [Close] is called. *)
Theorem nat_sockets_closed_once_without_Stop tr b i e :
  forallb (fun a => negb (is_stop a)) tr = true ->
  nat_run tr fresh_backend = Some b ->
  created b !! i = Some e ->
  ne_src_closes e = src_closes_at (ne_pc e)
  /\ ne_dst_closes e = dst_closes_at (ne_pc e)
  /\ (ne_pc e = RDone -> ne_src_closes e = 1%nat /\ ne_dst_closes e = 1%nat)
  /\ ((0 < ne_src_closes e)%nat \/ (0 < ne_dst_closes e)%nat ->
      udpNatMap_ b !! ne_key e <> Some i).
Proof.
  intros Hns Hrun He.
  pose proof (nat_run_closed_by_reader_only _ _ _ Hns Hrun fresh_backend_closed) as Hc.
  pose proof (nat_run_inv _ _ _ Hrun fresh_backend_inv) as Hinv.
  destruct (Hc i e He) as [Hs Hd].
  split; [exact Hs|]. split; [exact Hd|]. split.
  - intros Hp. rewrite Hs, Hd, Hp. split; reflexivity.
  - intros Hpos Hm. apply Hinv in Hm as (e' & He' & _ & Hp').
    assert (e' = e) by congruence. subst e'.
    rewrite Hs, Hd, Hp' in Hpos. cbn in Hpos. lia.
Qed.

Lemma nat_sockets_closed_once_without_Stop_witness :
  exists b e,
    nat_run examples.reader_times_out fresh_backend = Some b
    /\ created b !! 0%nat = Some e
    /\ ne_pc e = RDone
    /\ ne_src_closes e = 1%nat /\ ne_dst_closes e = 1%nat.
Proof.
  eexists. eexists.
  split; [reflexivity|]. split; [reflexivity|]. split; [reflexivity|].
  exact (proj1 (proj2 (proj2
    (nat_sockets_closed_once_without_Stop examples.reader_times_out _ 0%nat _
       eq_refl eq_refl eq_refl))) eq_refl).
Defined.

(** C4 fails as stated: when [Stop] runs while the reader of an entry is
    copying, [Stop] closes both sockets and leaves the entry in the map, and
    the reader closes both once more when it winds up. *)
Lemma nat_sockets_closed_twice_with_Stop :
  created <$> nat_run examples.stop_while_copying fresh_backend
  = Some [{| ne_key := "192.168.1.5:40000->8.8.8.8:53"; ne_pc := RDone;
             ne_src_closes := 2; ne_dst_closes := 2 |}]
  /\ (udpNatMap_ <$> nat_run (take 3 examples.stop_while_copying) fresh_backend)
     = Some {[ "192.168.1.5:40000->8.8.8.8:53" := 0%nat ]}.
Proof. split; vm_compute; reflexivity. Qed.

(** *** RelayTCPData: the mux transport *)

(** C7: when the backend has a mux transport and no stream can be had from
    it, [RelayTCPData] returns what it returns on a backend without mux
    transport, the error of the mux transport is not part of the result,
    and after the failed attempt it does what it does on such a backend:
    it dials the remote. *)
Theorem RelayTCPData_mux_failure_falls_back env src e originDst :
  tcp_convert env = inr originDst ->
  tcp_kcp_get env = inl e ->
  (RelayTCPData env true src).1 = (RelayTCPData env false src).1
  /\ (RelayTCPData env true src).2 = EvGetKcpConn :: (RelayTCPData env false src).2
  /\ In EvDialTCP (RelayTCPData env true src).2.
Proof.
  intros Hc H. unfold RelayTCPData. rewrite Hc, H.
  unfold createTCPConn.
  destruct (tcp_dial env); [cbn; intuition|].
  destruct (tcp_write env); cbn; intuition.
Qed.

Lemma RelayTCPData_mux_failure_falls_back_witness :
  (RelayTCPData examples.tcp_env true 9%nat).1 = (4096, 120, Some (Ext 2))
  /\ (RelayTCPData examples.tcp_env true 9%nat).1 = (RelayTCPData examples.tcp_env false 9%nat).1
  /\ (RelayTCPData examples.tcp_env true 9%nat).2
     = EvGetKcpConn :: (RelayTCPData examples.tcp_env false 9%nat).2
  /\ In EvDialTCP (RelayTCPData examples.tcp_env true 9%nat).2.
Proof.
  split; [reflexivity|].
  exact (RelayTCPData_mux_failure_falls_back examples.tcp_env 9%nat (Ext 1) _
           eq_refl eq_refl).
Defined.

(** *** RelayTCPData: the copy phase of the plain tunnel *)

Section CopyPhaseFacts.
Variables down up : Z * option error.

Lemma relay_step_next s s' :
  relay_step down up s s' -> In s' (relay_next down up s).
Proof.
  intros H. unfold relay_next, caller_next, spawned_next.
  apply in_app_iff.
  destruct H as [s H|s H|s H|s H|s H|s H|s H1 H2|s H|s H];
    rewrite ?H, ?H1, ?H2; cbn; auto.
Qed.

Lemma relay_next_step s s' :
  In s' (relay_next down up s) -> relay_step down up s s'.
Proof.
  unfold relay_next, caller_next, spawned_next. intros H.
  apply in_app_iff in H as [H | H].
  - destruct (m_pc s) eqn:Em; cbn in H;
      try (destruct H as [<- | []]; now constructor).
    + destruct (g_pc s) eqn:Eg; cbn in H; try contradiction.
      destruct H as [<- | []]. now constructor.
    + contradiction.
  - destruct (g_pc s) eqn:Eg; cbn in H; try contradiction;
      destruct H as [<- | []]; now constructor.
Qed.

Lemma relay_steps_after n s s' :
  relay_steps down up n s s' -> In s' (relay_after down up n s).
Proof.
  induction 1 as [s | n s1 s2 s3 Hstep _ IH]; [now left|].
  cbn. apply in_flat_map. exists s2. split; [|exact IH].
  now apply relay_step_next.
Qed.

Lemma relay_step_rank s s' : relay_step down up s s' -> (rank s < rank s')%nat.
Proof.
  destruct 1 as [s H|s H|s H|s H|s H|s H|s H1 H2|s H|s H];
    unfold rank; cbn; rewrite ?H, ?H1, ?H2; cbn; lia.
Qed.

Lemma rank_bound s : (rank s <= 10)%nat.
Proof. unfold rank. destruct (m_pc s), (g_pc s); cbn; lia. Qed.

Lemma relay_steps_bound n s s' : relay_steps down up n s s' -> (n <= 10)%nat.
Proof.
  intros H.
  assert (rank s + n <= rank s')%nat.
  { induction H as [s | n s1 s2 s3 Hstep _ IH]; [lia|].
    apply relay_step_rank in Hstep. lia. }
  pose proof (rank_bound s'). lia.
Qed.

Lemma relay_steps_within_reach n s :
  relay_steps down up n relay_init s -> In s (within_reach down up).
Proof.
  intros H. unfold within_reach. apply in_flat_map. exists n. split.
  - apply in_seq. apply relay_steps_bound in H. lia.
  - now apply relay_steps_after.
Qed.

(** The trace of every finished run is orderly, and no other state is
    stuck. *)
Lemma within_reach_checked :
  forallb (fun s => if is_done s then orderly (trace s)
                    else negb (Nat.eqb (length (relay_next down up s)) 0))
          (within_reach down up) = true.
Proof. vm_compute. reflexivity. Qed.

Lemma within_reach_returns :
  Forall (fun s => is_done s = true ->
            last (trace s) =
              Some (TReturn down.1 up.1
                      (match down.2 with None => up.2 | Some e => Some e end)))
         (within_reach down up).
Proof.
  unfold within_reach. cbn -[last].
  repeat (apply Forall_cons; split; [intros Hd; try discriminate Hd; reflexivity|]).
  apply Forall_nil. exact I.
Qed.

Lemma relay_after_steps n s s' :
  In s' (relay_after down up n s) -> relay_steps down up n s s'.
Proof.
  revert s. induction n as [|n IH]; intros s H.
  - destruct H as [<- | []]. constructor.
  - cbn in H. apply in_flat_map in H as (s2 & H2 & H3).
    econstructor; [apply relay_next_step; exact H2 | now apply IH].
Qed.

End CopyPhaseFacts.

(** C8: in every run of the copy phase of the plain tunnel, from the point
    where the second task is spawned: a state that has not returned can
    take a step, and in a state that has returned each task has finished
    its copy and then set the deadline of both sockets, the return is the
    last event, after the deadline writes of both tasks, and the pair that
    is returned is the count of [io.Copy(src, dst)] followed by the count
    of [io.Copy(dst, src)]. *)
Theorem copy_phase_returns_after_both_copies down up n s :
  relay_steps down up n relay_init s ->
  (m_pc s <> M_done -> exists s', relay_step down up s s')
  /\ (m_pc s = M_done ->
      orderly (trace s) = true
      /\ last (trace s) =
           Some (TReturn down.1 up.1
                   (match down.2 with None => up.2 | Some e => Some e end))).
Proof.
  intros H. apply relay_steps_within_reach in H.
  pose proof (within_reach_checked down up) as Hc.
  rewrite forallb_forall in Hc. specialize (Hc s H).
  pose proof (within_reach_returns down up) as Hr.
  rewrite List.Forall_forall in Hr. specialize (Hr s H).
  unfold is_done in *. split.
  - intros Hnd. destruct (m_pc s) eqn:E; try congruence;
      (destruct (relay_next down up s) as [|s' l] eqn:En; [discriminate Hc|];
       exists s'; apply relay_next_step; rewrite En; now left).
  - intros Hd. rewrite Hd in *. split; [exact Hc | now apply Hr].
Qed.

Lemma copy_phase_returns_after_both_copies_witness :
  relay_steps (4096, Some (Ext 2)) (120, None) 9 relay_init examples.spawned_first
  /\ orderly (trace examples.spawned_first) = true
  /\ last (trace examples.spawned_first) = Some (TReturn 4096 120 (Some (Ext 2))).
Proof.
  assert (H : relay_steps (4096, Some (Ext 2)) (120, None) 9 relay_init
                examples.spawned_first).
  { apply relay_after_steps. vm_compute. tauto. }
  split; [exact H|].
  exact (proj2 (copy_phase_returns_after_both_copies _ _ _ _ H) eq_refl).
Defined.

(** X27: the two copies of the plain tunnel are concurrent: there is a run
    to the return in which the caller's copy finishes first and one in
    which the copy of the spawned task does. *)
Lemma copy_phase_either_order down up :
  exists s1 s2 tr1 tr2,
    relay_steps down up 9 relay_init s1 /\ relay_steps down up 9 relay_init s2
    /\ trace s1 = TCopyDone Caller down.1 :: tr1
    /\ trace s2 = TCopyDone Spawned up.1 :: tr2.
Proof.
  exists (hd relay_init (relay_after down up 9 relay_init)).
  exists (hd relay_init (rev (relay_after down up 9 relay_init))).
  do 2 eexists.
  split; [apply relay_after_steps; vm_compute; tauto|].
  split; [apply relay_after_steps; vm_compute; tauto|].
  split; vm_compute; reflexivity.
Qed.

(** The triple the caller's last step returns is the one [RelayTCPData]
    returns on the plain path. *)
Lemma RelayTCPData_plain_result env src originDst dst :
  tcp_convert env = inr originDst -> tcp_dial env = inr dst -> tcp_write env = None ->
  (RelayTCPData env false src).1 =
    ((tcp_down env).1, (tcp_up env).1,
     match (tcp_down env).2 with None => (tcp_up env).2 | Some e => Some e end).
Proof.
  intros H1 H2 H3. unfold RelayTCPData, createTCPConn. now rewrite H1, H2, H3.
Qed.

End backend_facts.

(** ** The DNS server *)

Module dns_facts.
Import dns_proxy.

(** *** The cache *)

(** C3, as the code has it: a lookup of a present entry at time [now]
    removes the entry and reports a miss when [ttl <= now]; returns the
    cached response with the refresh flag set when [halfTtl < now < ttl];
    and returns it with the flag clear when [now < ttl] and
    [now <= halfTtl]. *)
Theorem GetDnsCache_by_age env w domain caches res :
  dnsCaches (srv w) = Some caches ->
  caches !! domain = Some res ->
  let now := clock env (ticks w) in
  let out := GetDnsCache env domain w in
  (ttl res <= now ->
     out.1 = Some (None, false)
     /\ dnsCaches (srv out.2) = Some (delete domain caches))
  /\ (halfTtl res < now < ttl res ->
     out.1 = Some (Some (response res), true)
     /\ dnsCaches (srv out.2) = Some caches)
  /\ (now < ttl res -> now <= halfTtl res ->
     out.1 = Some (Some (response res), false)
     /\ dnsCaches (srv out.2) = Some caches).
Proof.
  intros Hc Hd now out. subst out.
  unfold GetDnsCache, bind, get_srv, time_Now. rewrite Hc, Hd. cbn.
  fold now. unfold Before, After.
  split; [|split].
  - intros H. rewrite (proj2 (Z.ltb_ge _ _) H). cbn. auto.
  - intros [H1 H2]. rewrite (proj2 (Z.ltb_lt _ _) H2), (proj2 (Z.ltb_lt _ _) H1).
    cbn. auto.
  - intros H1 H2. rewrite (proj2 (Z.ltb_lt _ _) H1), (proj2 (Z.ltb_ge _ _) H2).
    cbn. auto.
Qed.

Lemma GetDnsCache_by_age_witness :
  let out := GetDnsCache (examples.example_env (1200 * Second)) "example.com"
               examples.example_world in
  out.1 = Some (Some 0%nat, true)
  /\ dnsCaches (srv out.2) = dnsCaches examples.example_server.
Proof.
  exact (proj1 (proj2
    (GetDnsCache_by_age (examples.example_env (1200 * Second)) examples.example_world
       "example.com" _ _ eq_refl eq_refl)) ltac:(vm_compute; split; reflexivity)).
Defined.

(** C3 fails as stated: a lookup at the very instant [halfTtl] returns the
    cached response with the refresh flag clear. *)
Lemma GetDnsCache_at_halfTtl_is_fresh :
  (GetDnsCache (examples.example_env (1150 * Second)) "example.com"
     examples.example_world).1
  = Some (Some 0%nat, false).
Proof. vm_compute. reflexivity. Qed.

(** *** What a lookup does to the stored entries *)

Lemma entries_kept_refl c : entries_kept c c.
Proof. unfold entries_kept. destruct (dnsCaches c); eauto. Qed.

Lemma entries_kept_trans c1 c2 c3 :
  entries_kept c1 c2 -> entries_kept c2 c3 -> entries_kept c1 c3.
Proof.
  unfold entries_kept. intros H12 H23.
  destruct (dnsCaches c3) as [m3|]; [|exact I].
  destruct H23 as (m2 & E2 & H23). rewrite E2 in H12.
  destruct H12 as (m1 & E1 & H12). exists m1. split; [exact E1|]. auto.
Qed.

Lemma messages_kept_refl h : messages_kept h h.
Proof.
  intros l. destruct (h !! l) as [m|] eqn:E; [|reflexivity].
  exists m. split; [reflexivity|]. now destruct m.
Qed.

Lemma messages_kept_trans h1 h2 h3 :
  messages_kept h1 h2 -> messages_kept h2 h3 -> messages_kept h1 h3.
Proof.
  intros H12 H23 l. specialize (H12 l). specialize (H23 l).
  destruct (h3 !! l) as [m3|].
  - destruct H23 as (m2 & E2 & H3). rewrite E2 in H12.
    destruct H12 as (m1 & E1 & H2). exists m1. split; [exact E1|].
    rewrite H3, H2. reflexivity.
  - now rewrite H23 in H12.
Qed.

Lemma messages_kept_set_Id id l h : messages_kept h (alter (set_Id id) l h).
Proof.
  intros l'. rewrite lookup_alter. destruct (decide (l = l')) as [<- | Hne].
  - destruct (h !! l) as [m|]; cbn; [|reflexivity]. now exists m.
  - apply (messages_kept_refl h l').
Qed.

(** [GetDnsCache] leaves the messages and the log alone, does not panic,
    and either keeps the cache as it is or drops the entry it looked up. *)
Lemma GetDnsCache_effect env domain w o w1 :
  GetDnsCache env domain w = (o, w1) ->
  heap w1 = heap w /\ log w1 = log w
  /\ entries_kept (srv w) (srv w1)
  /\ remoteResolver (srv w1) = remoteResolver (srv w)
  /\ timeout (srv w1) = timeout (srv w)
  /\ exists hit, o = Some hit.
Proof.
  unfold GetDnsCache, bind, get_srv. cbn.
  destruct (dnsCaches (srv w)) as [caches|] eqn:Ec.
  2:{ intros [= <- <-]. repeat split; eauto using entries_kept_refl. }
  destruct (caches !! domain) as [res|] eqn:Er.
  2:{ intros [= <- <-]. repeat split; eauto using entries_kept_refl. }
  unfold time_Now. cbn. destruct (Before _ _); cbn; intros [= <- <-]; cbn.
  - repeat split; eauto using entries_kept_refl.
  - repeat split; eauto. unfold entries_kept. cbn.
    exists caches. split; [exact Ec|]. intros d e H.
    apply lookup_delete_Some in H. tauto.
Qed.

Lemma checkCache_loop_effect env id qs w o w' :
  checkCache_loop env id qs w = (o, w') ->
  entries_kept (srv w) (srv w')
  /\ messages_kept (heap w) (heap w')
  /\ log w' = log w
  /\ remoteResolver (srv w') = remoteResolver (srv w)
  /\ timeout (srv w') = timeout (srv w)
  /\ exists hit, o = Some hit
       /\ forall l, hit.1 = Some l ->
            exists h, messages_kept (heap w) h /\ heap w' = alter (set_Id id) l h.
Proof.
  revert w. induction qs as [|q qs IH]; intros w H; cbn in H.
  - injection H as <- <-.
    repeat split; eauto using entries_kept_refl, messages_kept_refl.
    eexists. split; [reflexivity|]. discriminate.
  - destruct (Qclass q =? ClassINET); [|now apply IH].
    unfold bind at 1 in H.
    destruct (GetDnsCache env _ w) as [o1 w1] eqn:G.
    apply GetDnsCache_effect in G as (Gh & Gl & Ge & Gr & Gt & hit & ->).
    destruct hit as [[l|] flag]; cbn [fst snd] in H.
    + cbn in H. injection H as <- <-. cbn. rewrite Gh, Gl.
      repeat split; auto using messages_kept_set_Id.
      eexists. split; [reflexivity|]. intros l' [= <-].
      exists (heap w). split; [apply messages_kept_refl | reflexivity].
    + apply IH in H as (Ie & Im & Il & Ir & It & hit & Ih & Ihit).
      rewrite Gh in Im. rewrite Gl in Il. rewrite Gr in Ir. rewrite Gt in It.
      repeat split; eauto using entries_kept_trans.
      exists hit. split; [exact Ih|]. intros l Hl.
      destruct (Ihit l Hl) as (h & Hh & Hout). rewrite Gh in Hh. eauto.
Qed.

Lemma checkCache_effect env r w o w' :
  checkCache env r w = (o, w') ->
  entries_kept (srv w) (srv w')
  /\ messages_kept (heap w) (heap w')
  /\ log w' = log w
  /\ remoteResolver (srv w') = remoteResolver (srv w)
  /\ timeout (srv w') = timeout (srv w)
  /\ exists hit, o = Some hit
       /\ forall l, hit.1 = Some l ->
            exists h, messages_kept (heap w) h
                      /\ heap w' = alter (set_Id (Id r)) l h.
Proof.
  unfold checkCache, bind, get_srv. cbn.
  destruct (dnsCaches (srv w)) eqn:E.
  - apply checkCache_loop_effect.
  - intros [= <- <-].
    repeat split; eauto using entries_kept_refl, messages_kept_refl.
    eexists. split; [reflexivity|]. discriminate.
Qed.

(** The message a hit points to carries the id of the query. *)
Lemma checkCache_hit_Id env r w l flag w1 m :
  checkCache env r w = (Some (Some l, flag), w1) ->
  heap w1 !! l = Some m ->
  exists m0, heap w !! l = Some m0 /\ m = set_Id (Id r) m0.
Proof.
  intros H Hm.
  apply checkCache_effect in H as (_ & _ & _ & _ & _ & hit & [= <-] & Hhit).
  destruct (Hhit l eq_refl) as (h & Hh & Hw1).
  rewrite Hw1, lookup_alter in Hm.
  destruct (decide (l = l)) as [_|]; [|congruence].
  specialize (Hh l).
  destruct (h !! l) as [m'|]; [|discriminate].
  injection Hm as <-. destruct Hh as (m0 & E0 & Hm').
  exists m0. split; [exact E0|]. rewrite Hm'. reflexivity.
Qed.

(** C5, as the code has it: serving a lookup never changes an entry of the
    cache (an entry that is still there has the pointer and the deadlines
    it had), and never changes a stored message except in its [Id]; on a
    hit the [Id] of the stored response is overwritten with the id of the
    query. *)
Theorem checkCache_rewrites_only_the_Id env r w :
  let out := checkCache env r w in
  entries_kept (srv w) (srv out.2)
  /\ messages_kept (heap w) (heap out.2)
  /\ forall l flag, out.1 = Some (Some l, flag) ->
       heap out.2 !! l = set_Id (Id r) <$> heap w !! l.
Proof.
  intros out. subst out.
  destruct (checkCache env r w) as [o w1] eqn:Ec. cbn [fst snd].
  destruct (checkCache_effect _ _ _ _ _ Ec) as (He & Hm & _).
  split; [exact He|]. split; [exact Hm|].
  intros l flag ->.
  destruct (heap w1 !! l) as [m|] eqn:E1.
  - destruct (checkCache_hit_Id _ _ _ _ _ _ _ Ec E1) as (m0 & E0 & ->).
    now rewrite E0.
  - specialize (Hm l). rewrite E1 in Hm. now rewrite Hm.
Qed.

Lemma checkCache_rewrites_only_the_Id_witness :
  let out := checkCache (examples.example_env (1100 * Second))
               (examples.example_query 1111) examples.example_world in
  out.1 = Some (Some 0%nat, false)
  /\ heap out.2 !! 0%nat = Some (set_Id 1111 examples.example_answer).
Proof.
  split; [vm_compute; reflexivity|].
  exact (proj2 (proj2
    (checkCache_rewrites_only_the_Id (examples.example_env (1100 * Second))
       (examples.example_query 1111) examples.example_world)) 0%nat false eq_refl).
Defined.

(** C5 fails as stated: two hits on the same entry, for queries with the
    ids 1111 and 2222, leave the stored response first with the one id and
    then with the other, and neither time with the id it was stored with. *)
Lemma cached_response_is_rewritten :
  let env := examples.example_env (1100 * Second) in
  let w1 := (checkCache env (examples.example_query 1111) examples.example_world).2 in
  let w2 := (checkCache env (examples.example_query 2222) w1).2 in
  Id <$> heap examples.example_world !! 0%nat = Some 7
  /\ Id <$> heap w1 !! 0%nat = Some 1111
  /\ Id <$> heap w2 !! 0%nat = Some 2222
  /\ heap w1 !! 0%nat <> heap examples.example_world !! 0%nat
  /\ heap w2 !! 0%nat <> heap w1 !! 0%nat.
Proof.
  vm_compute. repeat split; discriminate.
Qed.

(** *** ServeDNS on a cache hit *)

Lemma bind_run {A B} (m : M A) (k : A -> M B) w a w' :
  m w = (Some a, w') -> bind m k w = k a w'.
Proof. intros H. unfold bind. now rewrite H. Qed.

Lemma scan_answers_log answers st w o w' :
  scan_answers answers st w = (o, w') ->
  exists evs, log w' = log w ++ evs /\ no_reply evs = true.
Proof.
  revert st w. induction answers as [|a answers IH]; intros st w H; cbn in H.
  - injection H as <- <-. exists []. now rewrite app_nil_r.
  - destruct (Class (Header a) =? ClassINET); [|now apply IH in H].
    destruct (Rrtype (Header a) =? TypeA).
    + destruct (Data a); try (injection H as <- <-; exists []; now rewrite app_nil_r).
      unfold bind, emit in H. cbn in H.
      apply IH in H as (evs & Hl & Hq). cbn in Hl.
      eexists (_ :: evs). rewrite Hl, <- app_assoc. split; [reflexivity|exact Hq].
    + destruct (Rrtype (Header a) =? TypeCNAME); [|now apply IH in H].
      destruct (Data a); try (injection H as <- <-; exists []; now rewrite app_nil_r).
      unfold bind, emit in H. cbn in H.
      apply IH in H as (evs & Hl & Hq). cbn in Hl.
      eexists (_ :: evs). rewrite Hl, <- app_assoc. split; [reflexivity|exact Hq].
Qed.

Lemma AddDnsCache_log env domain l t w o w' :
  AddDnsCache env domain l t w = (o, w') -> log w' = log w.
Proof.
  unfold AddDnsCache, bind, get_srv. cbn.
  destruct (dnsCaches (srv w)); cbn; now intros [= _ <-].
Qed.

(** What [ServeDNS] does after the upstream exchange has been logged: no
    reply to the client when [bWriteBack] is set. *)
Lemma after_exchange_log env (r : Msg) domainName (w : world) (reply : error + Msg) :
  exists evs,
    log ((match reply with
          | inl _ => ret tt
          | inr answer =>
            resDns <- alloc (set_Id (Id r) answer) ;;
            st <- scan_answers (Answer answer) (false, 0) ;;
            c <- get_srv ;;
            (if st.1 && bool_decide (dnsCaches c <> None)
             then AddDnsCache env domainName resDns st.2
             else ret tt) ;;;
            if negb true then WriteMsg resDns else ret tt
          end) w).2 = log w ++ evs
    /\ no_reply evs = true.
Proof.
  destruct reply as [e | answer].
  - exists []. now rewrite app_nil_r.
  - unfold bind at 1. unfold alloc at 1. cbn [fst snd].
    unfold bind at 1.
    destruct (scan_answers _ _ _) as [[st|] w3] eqn:Es;
      apply scan_answers_log in Es as (evs & Hl & Hq); cbn in Hl;
      exists evs; (split; [|exact Hq]); [|exact Hl].
    unfold bind at 1. unfold get_srv at 1.
    unfold bind at 1.
    destruct (st.1 && _).
    + destruct (AddDnsCache _ _ _ _ _) as [[[]|] w4] eqn:Ea;
        apply AddDnsCache_log in Ea; cbn; congruence.
    + cbn. exact Hl.
Qed.

(** A query whose first question is of class INET and names an entry that
    is past half of its life, and not past all of it, gets a hit with the
    refresh flag set. *)
Lemma checkCache_refresh_flag env r w q qs caches res :
  Question r = q :: qs ->
  Qclass q = ClassINET ->
  dnsCaches (srv w) = Some caches ->
  caches !! TrimSuffix (Name q) "." = Some res ->
  halfTtl res < clock env (ticks w) < ttl res ->
  (checkCache env r w).1 = Some (Some (response res), true).
Proof.
  intros Hq Hc Hs He [H1 H2].
  unfold checkCache, bind, get_srv. cbn. rewrite Hs, Hq. cbn.
  rewrite Hc, Z.eqb_refl.
  unfold bind, GetDnsCache, bind, get_srv, time_Now. cbn. rewrite Hs, He. cbn.
  unfold Before, After.
  now rewrite (proj2 (Z.ltb_lt _ _) H2), (proj2 (Z.ltb_lt _ _) H1).
Qed.

(** C6, as the code has it: for a proxied query that gets a cache hit with
    the refresh flag set, when a remote resolver can be picked and the
    query packs: the cached response, with the id of the query, is written
    to the client; the query is then exchanged through the tunnel; and
    nothing else is written to the client and nothing else is exchanged. *)
Theorem ServeDNS_refresh_hit env r w domainName l w1 m resolver data :
  blacked env (Question r) = Some domainName ->
  checkCache env r w = (Some (Some l, true), w1) ->
  heap w1 !! l = Some m ->
  pick env (remoteResolver (srv w1)) = Some resolver ->
  Pack env r = inr data ->
  (exists m0, heap w !! l = Some m0 /\ m = set_Id (Id r) m0)
  /\ exists evs,
       log (ServeDNS env r w).2 =
         log w ++ EvWriteMsg m :: EvExchangeDNS (addr resolver) data (timeout (srv w1)) :: evs
       /\ no_reply evs = true.
Proof.
  intros Hb Hc Hm Hp Hk.
  split; [eapply checkCache_hit_Id; eauto|].
  assert (Hlog : log w1 = log w) by (apply checkCache_effect in Hc; tauto).
  unfold ServeDNS. cbv beta iota delta [applyFilterChain]. rewrite Hb.
  rewrite (bind_run _ _ _ _ _ Hc). cbn [fst snd].
  set (w2 := {| srv := srv w1; heap := heap w1; next := next w1; ticks := ticks w1;
                log := log w1 ++ [EvWriteMsg m] |}).
  assert (Hw : (WriteMsg l ;;; ret true) w1 = (Some true, w2)).
  { unfold bind, WriteMsg, deref, emit. cbn. now rewrite Hm. }
  rewrite (bind_run _ _ _ _ _ Hw). cbn [andb negb].
  assert (Hr : getResolver env true w2 = (Some resolver, w2)).
  { unfold getResolver. cbn. now rewrite Hp. }
  rewrite (bind_run _ _ _ _ _ Hr). rewrite Hk.
  rewrite (bind_run get_srv _ w2 (srv w2) w2 eq_refl).
  set (w3 := {| srv := srv w1; heap := heap w1; next := next w1; ticks := ticks w1;
                log := (log w1 ++ [EvWriteMsg m])
                       ++ [EvExchangeDNS (addr resolver) data (timeout (srv w1))] |}).
  rewrite (bind_run (emit _) _ w2 tt w3 eq_refl).
  destruct (after_exchange_log env r domainName w3
              (ExchangeDNS env (addr resolver) data (timeout (srv w2))))
    as (evs & Hl & Hq).
  exists evs. split; [|exact Hq].
  etransitivity; [exact Hl|]. cbn. rewrite Hlog, <- !app_assoc. reflexivity.
Qed.

Lemma ServeDNS_refresh_hit_witness :
  let env := examples.example_env (1200 * Second) in
  let r := examples.example_query 4242 in
  exists evs,
    log (ServeDNS env r examples.example_world).2 =
      EvWriteMsg (set_Id 4242 examples.example_answer)
      :: EvExchangeDNS "1.1.1.1:53" [Byte.x12; Byte.x34] (5 * Second) :: evs
    /\ no_reply evs = true.
Proof.
  exact (proj2
    (ServeDNS_refresh_hit (examples.example_env (1200 * Second))
       (examples.example_query 4242) examples.example_world
       "example.com" 0%nat _ (set_Id 4242 examples.example_answer)
       {| addr := "1.1.1.1:53"; client := "udp" |} [Byte.x12; Byte.x34]
       eq_refl eq_refl eq_refl eq_refl eq_refl)).
Defined.

(** C6 fails as stated: a query that arrives at the very instant [halfTtl]
    is answered from the cache and nothing is exchanged through the tunnel;
    and on a server without remote resolvers a hit past [halfTtl] is
    answered from the cache and the handler then panics, again without an
    exchange. *)
Lemma ServeDNS_hit_without_refresh :
  ServeDNS (examples.example_env (1150 * Second)) (examples.example_query 4242)
    examples.example_world
  = (Some tt,
     {| srv := examples.example_server;
        heap := {[ 0%nat := set_Id 4242 examples.example_answer ]};
        next := 1%nat; ticks := 1%nat;
        log := [EvWriteMsg (set_Id 4242 examples.example_answer)] |})
  /\ (let out := ServeDNS (examples.example_env (1200 * Second))
                   (examples.example_query 4242) examples.no_remote_world in
      out.1 = None
      /\ log out.2 = [EvWriteMsg (set_Id 4242 examples.example_answer)]).
Proof. vm_compute. repeat split. Qed.

(** *** Resolver selection *)

Lemma int32_small x : - 2 ^ 31 <= x < 2 ^ 31 -> int32 x = x.
Proof.
  intros H. unfold int32. rewrite Z.mod_small by lia. lia.
Qed.

Lemma int32_le x : 0 <= x -> int32 x <= x.
Proof.
  intros H. unfold int32.
  pose proof (Z.mod_le (x + 2 ^ 31) (2 ^ 32) ltac:(lia) ltac:(lia)). lia.
Qed.

Lemma index_In {A} (s : list A) i x : index s i = Some x -> In x s.
Proof.
  unfold index. destruct (_ && _); [|discriminate].
  intros H. apply list_elem_of_In. eapply list_elem_of_lookup_2. exact H.
Qed.

Lemma index_in_range {A} (s : list A) i :
  0 <= i < len s -> exists x, index s i = Some x.
Proof.
  intros [H1 H2]. unfold index.
  rewrite (proj2 (Z.leb_le _ _) H1), (proj2 (Z.ltb_lt _ _) H2). cbn.
  apply lookup_lt_is_Some_2. unfold len in H2. lia.
Qed.

Lemma pick_In env resolvers r : pick env resolvers = Some r -> In r resolvers.
Proof.
  unfold pick. destruct (len resolvers =? 1); [apply index_In|].
  destruct (rand_Int31n env _); [apply index_In|discriminate].
Qed.

Lemma pick_nil env : pick env [] = None.
Proof. reflexivity. Qed.

Lemma pick_returns env resolvers :
  (forall n, 0 < n -> 0 <= Int31n env n < n) ->
  resolvers <> [] -> len resolvers < 2 ^ 31 ->
  exists r, pick env resolvers = Some r.
Proof.
  intros Hrand Hne Hlen. unfold pick.
  assert (Hpos : 0 < len resolvers).
  { destruct resolvers; [congruence|]. unfold len. cbn [length]. lia. }
  destruct (len resolvers =? 1) eqn:E.
  - apply index_in_range. lia.
  - unfold rand_Int31n. rewrite int32_small by lia.
    rewrite (proj2 (Z.leb_gt _ _) Hpos).
    apply index_in_range. apply Hrand. exact Hpos.
Qed.

(** C9: on an empty list [getResolver] calls [rand.Int31n] with 0 and
    panics; whatever it returns is an element of the list it chose from;
    and it does return, for a list that is not empty and whose length
    [int32] does not cut, whenever [rand.Int31n] keeps to its range. *)
Theorem getResolver_picks_from_the_list env (bIsRemote : bool) w :
  (forall n, 0 < n -> 0 <= Int31n env n < n) ->
  let resolvers :=
    if bIsRemote then remoteResolver (srv w) else localResolver (srv w) in
  (resolvers = [] ->
     rand_Int31n env (int32 (len resolvers)) = None
     /\ (getResolver env bIsRemote w).1 = None)
  /\ (forall r, (getResolver env bIsRemote w).1 = Some r -> In r resolvers)
  /\ (resolvers <> [] -> len resolvers < 2 ^ 31 ->
      exists r, (getResolver env bIsRemote w).1 = Some r /\ In r resolvers).
Proof.
  intros Hrand resolvers.
  assert (Hget : (getResolver env bIsRemote w).1 = pick env resolvers)
    by (unfold getResolver; subst resolvers; now destruct bIsRemote).
  rewrite Hget. split; [|split].
  - intros ->. split; reflexivity.
  - intros r. apply pick_In.
  - intros Hne Hlen. destruct (pick_returns env resolvers Hrand Hne Hlen) as [r Hr].
    exists r. split; [exact Hr | now apply pick_In with env].
Qed.

Lemma getResolver_picks_from_the_list_witness :
  exists r,
    (getResolver (examples.example_env 0) true examples.example_world).1 = Some r
    /\ In r (remoteResolver examples.example_server).
Proof.
  exact (proj2 (proj2
    (getResolver_picks_from_the_list (examples.example_env 0) true examples.example_world
       ltac:(cbn; lia)))
    ltac:(discriminate) ltac:(reflexivity)).
Defined.

(** *** sendNum *)

(** X25: after a successful [StartDnsServer] the send number is at least 1,
    whatever the configuration says. *)
Lemma StartDnsServer_sendNum dnsConfig pacMgr routingMgr c :
  StartDnsServer dnsConfig pacMgr routingMgr = Ok c -> 1 <= sendNum c.
Proof.
  unfold StartDnsServer. destruct routingMgr; [|discriminate].
  destruct pacMgr; [|discriminate]. intros [= <-]. cbn.
  destruct (_ <? 1) eqn:E; [lia | now apply Z.ltb_ge in E].
Qed.

(** X26: after a [Reload] with a send number that fits an [int32] the send
    number is at least 1. *)
Lemma Reload_sendNum_small dnsConfig c :
  - 2 ^ 31 <= SendNum dnsConfig < 2 ^ 31 -> 1 <= sendNum (Reload dnsConfig c).
Proof.
  intros H. unfold Reload. cbn.
  destruct (_ <? 1) eqn:E.
  - now rewrite int32_small by lia.
  - apply Z.ltb_ge in E. now rewrite int32_small by lia.
Qed.

(** C10, at a send number of [2 ^ 32]: [StartDnsServer] stores 1, and
    [Reload], which clamps before it converts to [int32], stores 0. *)
Theorem Reload_stores_zero_sendNum :
  (exists c, StartDnsServer (examples.example_config (2 ^ 32)) (Some 1%nat) (Some 2%nat)
              = Ok c /\ sendNum c = 1)
  /\ sendNum (Reload (examples.example_config (2 ^ 32)) examples.example_server) = 0.
Proof. split; [eexists; split; reflexivity | reflexivity]. Qed.

End dns_facts.

(** ** More on the tunnel backend *)

Module backend_more.
Import slice_facts.
Import proxy_client.

(** *** RelayUDPData *)

(** X1: once the entry of the flow is there, and [dataLen] bytes are there
    to send and a pool buffer is at least as long as the pool says,
    [RelayUDPData] refreshes the read deadline of the tunnel socket and then
    writes one datagram to it, the header of the flow followed by the first
    [dataLen] bytes of the data, from a pool buffer or from an allocated
    one; what it returns is the outcome of that write. *)
Theorem RelayUDPData_sends_header_and_payload
    env nat_ udpTimeout srcAddr dstAddr bufSize newBuffer data dataLen udpProxy tr0 :
  udp_entry env nat_ srcAddr dstAddr udpTimeout = inr (udpProxy, tr0) ->
  0 <= dataLen <= len data ->
  bufSize <= len newBuffer ->
  let totalLen := len (header_ udpProxy) + dataLen in
  let datagram :=
    EvWriteTo (dst_ udpProxy) (header_ udpProxy ++ take (Z.to_nat dataLen) data) in
  RelayUDPData env nat_ udpTimeout srcAddr dstAddr bufSize newBuffer data dataLen
  = (match udp_write env with Some e => Go.Err e | None => Ok tt end,
     tr0 ++ EvSetReadDeadline (dst_ udpProxy) ::
       if bufSize <? totalLen then [EvAlloc totalLen; datagram]
       else [EvPoolGet; datagram; EvPoolPut]).
Proof.
  intros He [Hd0 Hd1] Hbuf totalLen datagram. subst totalLen datagram.
  pose proof (len_nonneg (header_ udpProxy)) as Hh.
  unfold RelayUDPData. rewrite He. unfold udp_send.
  set (hl := len (header_ udpProxy)) in *.
  assert (Hbody : slice data 0 dataLen = Some (take (Z.to_nat dataLen) data)).
  { rewrite slice_Some by lia. now rewrite Z.sub_0_r. }
  assert (Hhl : Z.to_nat hl = length (header_ udpProxy))
    by (subst hl; unfold len; apply Nat2Z.id).
  assert (Hbl : length (take (Z.to_nat dataLen) data) = Z.to_nat dataLen).
  { rewrite length_take. unfold len in Hd1. lia. }
  destruct (bufSize <? hl + dataLen) eqn:E.
  - unfold make. rewrite (proj2 (Z.ltb_ge _ _)) by lia.
    rewrite slice_Some by (rewrite ?len_replicate; lia).
    rewrite Hbody.
    rewrite copy_short by (rewrite length_replicate; lia).
    rewrite copy_at_Some
      by (rewrite ?len_app, ?len_replicate; unfold len;
          rewrite ?length_drop, ?length_replicate; fold hl; lia).
    rewrite Hhl, take_app_length, drop_app_length, drop_replicate.
    rewrite copy_long by (rewrite length_replicate, Hbl; lia).
    rewrite length_replicate, take_ge by (rewrite Hbl; lia).
    destruct (udp_write env); reflexivity.
  - apply Z.ltb_ge in E. rewrite Hbody.
    assert (Hnb : (length (header_ udpProxy) + Z.to_nat dataLen <= length newBuffer)%nat)
      by (unfold len in *; lia).
    rewrite copy_short by lia.
    rewrite copy_at_Some
      by (rewrite ?len_app; unfold len; rewrite ?length_drop; fold hl; lia).
    rewrite Hhl, take_app_length, drop_app_length.
    rewrite copy_short by (rewrite length_drop, Hbl; lia).
    rewrite slice_Some
      by (rewrite ?len_app; unfold len in *;
          rewrite ?length_drop, ?Hbl; try lia).
    rewrite Z.sub_0_r, drop_0, Hbl, app_assoc.
    rewrite take_app_length'
      by (rewrite length_app, Hbl; unfold len in *; lia).
    destruct (udp_write env); reflexivity.
Qed.

(** X2: setting up the entry of a flow leaks no socket.  When the key is in
    the NAT map its entry is used and nothing is opened; when it is not, a
    success has opened the two sockets of the new entry and handed them to
    one reader task, and a failure has spawned no reader and has closed
    every socket as often as it opened it. *)
Theorem udp_entry_leaks_no_socket env nat_ srcAddr dstAddr udpTimeout :
  let key := computeUDPKey srcAddr dstAddr in
  match udp_entry env nat_ srcAddr dstAddr udpTimeout with
  | inr (udpProxy, tr) =>
    match nat_ !! key with
    | Some e => udpProxy = e /\ tr = []
    | None =>
      tr = [EvListenPacket (dst_ udpProxy); EvDialTransparentUDP (src_ udpProxy);
            EvSpawnReader key udpProxy]
    end
  | inl (_, tr) =>
    nat_ !! key = None
    /\ existsb is_spawn tr = false
    /\ forall c, count (opens c) tr = count (is_close_of c) tr
  end.
Proof.
  intros key. unfold udp_entry. fold key.
  destruct (nat_ !! key) as [e|] eqn:E; [auto|].
  destruct (udp_listen env) as [e1 | dstConn].
  { repeat split. }
  destruct (udp_dial env) as [e2 | srcConn].
  { repeat split. intros c. unfold count. cbn.
    destruct (Nat.eqb c dstConn); reflexivity. }
  unfold createUDPProxyEntry.
  destruct (udp_convert env dstAddr) as [e3 | hdr].
  - repeat split. intros c. unfold count. cbn.
    destruct (Nat.eqb c dstConn), (Nat.eqb c srcConn); reflexivity.
  - reflexivity.
Qed.

(** *** copyFromRemote *)

(** X3: the reader task of a flow never panics and always stops with an
    error; it writes to the spoofed-source socket only, and every datagram
    it writes there is a datagram it read from the tunnel, cut to the
    buffer, without the header of the flow, and is not empty. *)
Theorem copyFromRemote_forwards_bodies c buffer reads last :
  let out := copyFromRemote c buffer reads last in
  (exists e, out.1 = Some e)
  /\ forall conn payload, In (EvWriteTo conn payload) out.2 ->
       conn = src_ c
       /\ payload <> []
       /\ exists dgram wr,
            In (dgram, wr) reads
            /\ payload = drop (length (header_ c)) (take (length buffer) dgram).
Proof.
  cbv zeta. revert buffer.
  induction reads as [|[dgram wr] reads IH]; intros buffer.
  - cbn. split; [eauto|]. intros conn payload [H | [H | []]]; discriminate.
  - cbn [copyFromRemote]. unfold read_into.
    set (n := Z.min (len dgram) (len buffer)).
    assert (Hn1 : n <= len dgram) by apply Z.le_min_l.
    assert (Hn2 : n <= len buffer) by apply Z.le_min_r.
    pose proof (len_nonneg (header_ c)) as Hh.
    destruct (len (header_ c) <? n) eqn:E.
    2:{ cbn. split; [eauto|]. intros conn payload [H | [H | []]]; discriminate. }
    apply Z.ltb_lt in E.
    rewrite slice_Some by (rewrite ?len_copy; lia).
    set (tail := take _ _).
    assert (Htail : tail = drop (length (header_ c)) (take (length buffer) dgram)).
    { subst tail.
      assert (Hnat : Z.to_nat n = Nat.min (length dgram) (length buffer)).
      { subst n. unfold len. now rewrite <- Nat2Z.inj_min, Nat2Z.id. }
      rewrite Z2Nat.inj_sub by lia.
      rewrite (read_tail buffer dgram _ _ Hnat).
      unfold len at 1 2. rewrite Nat2Z.id.
      rewrite take_drop_commute. f_equal.
      replace (length (header_ c) + (Z.to_nat n - length (header_ c)))%nat
        with (Z.to_nat n) by (unfold len in *; lia).
      rewrite Hnat.
      destruct (Nat.le_ge_cases (length dgram) (length buffer)) as [Hle | Hge].
      - rewrite Nat.min_l by exact Hle. now rewrite !take_ge by lia.
      - now rewrite Nat.min_r by exact Hge. }
    assert (Hne : tail <> []).
    { intros H0. apply (f_equal length) in H0. subst tail.
      rewrite length_take, length_drop, copy_length in H0. cbn in H0.
      unfold len in *. lia. }
    assert (Hmine : forall conn payload, EvWriteTo (src_ c) tail = EvWriteTo conn payload ->
              conn = src_ c /\ payload <> []
              /\ exists dgram0 wr0, In (dgram0, wr0) ((dgram, wr) :: reads)
                   /\ payload = drop (length (header_ c)) (take (length buffer) dgram0)).
    { intros conn payload [= <- <-]. split; [reflexivity|]. split; [exact Hne|].
      exists dgram, wr. split; [now left | exact Htail]. }
    destruct wr as [e|].
    + cbn. split; [eauto|].
      intros conn payload [H | [H | [H | []]]]; try discriminate. now apply Hmine.
    + specialize (IH (copy buffer dgram)). rewrite copy_length in IH.
      destruct (copyFromRemote c (copy buffer dgram) reads last) as [o tr].
      cbn [fst snd] in *. destruct IH as [Herr IH]. split; [exact Herr|].
      intros conn payload [H | [H | [H | H]]]; try discriminate.
      * now apply Hmine.
      * destruct (IH conn payload H) as (H1 & H2 & dgram0 & wr0 & H3 & H4).
        split; [exact H1|]. split; [exact H2|].
        exists dgram0, wr0. split; [now right | exact H4].
Qed.

(** *** RelayDNS *)

(** X4: [RelayDNS] cleans up on every path.  Either it fails before it has
    a socket, and then the DNS NAT map is as it was and a pool buffer it took
    is given back; or it has a socket [c], found in the map under the client
    or newly opened, and then, whatever comes of the exchange, the map ends
    without an entry for the client and otherwise as it was, and the call
    ends by removing the entry, closing [c] for the first time and giving
    the pool buffer back. *)
Theorem RelayDNS_cleans_up env nat_ srcAddr dnsAddr data buffer :
  let out := RelayDNS env nat_ srcAddr dnsAddr data buffer in
  (out.1.2 = nat_
   /\ (out.2 = [] \/ out.2 = [EvPoolGet; EvPoolPut])
   /\ forall response, out.1.1 <> Ok response)
  \/ (exists c pre,
        (nat_ !! srcAddr = Some c
         \/ nat_ !! srcAddr = None /\ dns_listen env = inr c)
        /\ out.1.2 = delete srcAddr nat_
        /\ out.2 = EvPoolGet :: pre ++ dns_cleanup srcAddr c
        /\ forall e, In e pre ->
             is_pool_get e = false /\ is_pool_put e = false
             /\ is_close_of c e = false).
Proof.
  cbv zeta. unfold RelayDNS.
  destruct (dns_convert env dnsAddr) as [e0 | addrBytes].
  { left. cbn. repeat split; [now left | discriminate]. }
  cbv zeta.
  destruct (copy_at _ _ data) as [buffer2|].
  2:{ left. cbn. repeat split; [now right | discriminate]. }
  set (found := match nat_ !! srcAddr with Some _ => _ | None => _ end).
  assert (Hfound :
    (exists e, found = inl e)
    \/ exists c nat1 evs, found = inr (c, nat1, evs)
         /\ (nat_ !! srcAddr = Some c \/ nat_ !! srcAddr = None /\ dns_listen env = inr c)
         /\ delete srcAddr nat1 = delete srcAddr nat_
         /\ forall e, In e evs ->
              is_pool_get e = false /\ is_pool_put e = false /\ is_close_of c e = false).
  { subst found. destruct (nat_ !! srcAddr) as [c|] eqn:E.
    - right. exists c, nat_, []. repeat split; auto; contradiction.
    - destruct (dns_listen env) as [e | c]; [left; eauto|].
      right. exists c, (<[srcAddr := c]> nat_), [EvListenPacket c; EvDnsNatAdd srcAddr c].
      split; [reflexivity|]. split; [auto|]. split; [apply delete_insert_eq|].
      intros e [<- | [<- | []]]; repeat split. }
  destruct Hfound as [[e ->] | (c & nat1 & evs & -> & Hc & Hdel & Hevs)].
  { left. cbn. repeat split; [now right | discriminate]. }
  right.
  assert (Hshape : forall r tr,
    (forall e, In e tr ->
       is_pool_get e = false /\ is_pool_put e = false /\ is_close_of c e = false) ->
    exists pre,
      (r, delete srcAddr nat1, EvPoolGet :: evs ++ tr ++ dns_cleanup srcAddr c).1.2
        = delete srcAddr nat_
      /\ (r : result (list byte), delete srcAddr nat1,
          EvPoolGet :: evs ++ tr ++ dns_cleanup srcAddr c).2
         = EvPoolGet :: pre ++ dns_cleanup srcAddr c
      /\ forall e, In e pre ->
           is_pool_get e = false /\ is_pool_put e = false /\ is_close_of c e = false).
  { intros r tr Htr. exists (evs ++ tr). cbn [fst snd].
    split; [exact Hdel|]. split; [now rewrite <- app_assoc|].
    intros e He. apply in_app_iff in He as [He | He]; auto. }
  assert (Hq : forall e : event, In e [] ->
            is_pool_get e = false /\ is_pool_put e = false /\ is_close_of c e = false)
    by (intros e []).
  exists c.
  destruct (slice buffer2 0 _) as [out|].
  2:{ destruct (Hshape Panic [] Hq) as (pre & H1 & H2 & H3). exists pre. auto. }
  assert (Hw : forall e, In e [EvWriteTo c out] ->
            is_pool_get e = false /\ is_pool_put e = false /\ is_close_of c e = false)
    by (intros e [<- | []]; repeat split).
  assert (Hr : forall e, In e [EvWriteTo c out; EvSetReadDeadline c; EvReadFrom c] ->
            is_pool_get e = false /\ is_pool_put e = false /\ is_close_of c e = false)
    by (intros e [<- | [<- | [<- | []]]]; repeat split).
  destruct (dns_write env) as [e|].
  { destruct (Hshape (Go.Err (Wrap e "Write to remote DNS failed")) _ Hw)
      as (pre & H1 & H2 & H3). exists pre. auto. }
  destruct (dns_read env) as [e | dgram].
  { destruct (Hshape (Go.Err e) _ Hr) as (pre & H1 & H2 & H3). exists pre. auto. }
  unfold read_into.
  destruct (_ <=? _).
  { destruct (Hshape (Go.Err (New "Read DNS query empty")) _ Hr)
      as (pre & H1 & H2 & H3). exists pre. auto. }
  set (n := Z.min _ _).
  assert (Ha : forall e,
            In e ([EvWriteTo c out; EvSetReadDeadline c; EvReadFrom c] ++ [EvAlloc n]) ->
            is_pool_get e = false /\ is_pool_put e = false /\ is_close_of c e = false)
    by (intros e [<- | [<- | [<- | [<- | []]]]]; repeat split).
  destruct (make n) as [response|].
  2:{ destruct (Hshape Panic _ Hr) as (pre & H1 & H2 & H3). exists pre. auto. }
  destruct (slice _ _ n) as [tail|].
  2:{ destruct (Hshape Panic _ Hr) as (pre & H1 & H2 & H3). exists pre. auto. }
  destruct (Hshape (Ok (copy response tail)) _ Ha) as (pre & H1 & H2 & H3).
  exists pre. auto.
Qed.

(** X5: once [RelayDNS] has the header of the resolver and a socket [c]:
    when header and query together fit the pool buffer, it writes exactly
    one datagram, the header followed by the query, to [c]; when they do
    not, it panics and writes nothing. *)
Theorem RelayDNS_sends_header_and_query
    env nat_ srcAddr dnsAddr data buffer addrBytes c :
  dns_convert env dnsAddr = inr addrBytes ->
  (nat_ !! srcAddr = Some c \/ nat_ !! srcAddr = None /\ dns_listen env = inr c) ->
  let out := RelayDNS env nat_ srcAddr dnsAddr data buffer in
  (len addrBytes + len data <= len buffer ->
     In (EvWriteTo c (addrBytes ++ data)) out.2 /\ count is_write_to out.2 = 1%nat)
  /\ (len buffer < len addrBytes + len data ->
     out.1.1 = Panic /\ count is_write_to out.2 = 0%nat).
Proof.
  intros Hconv Hsock out. subst out.
  pose proof (len_nonneg addrBytes) as Ha.
  pose proof (len_nonneg data) as Hd.
  unfold RelayDNS. rewrite Hconv. cbv zeta.
  assert (Hfound : exists nat1 evs,
    match nat_ !! srcAddr with
    | Some c0 => inr (c0, nat_, [])
    | None => match dns_listen env with
              | inl e => inl e
              | inr c0 => inr (c0, <[srcAddr := c0]> nat_,
                               [EvListenPacket c0; EvDnsNatAdd srcAddr c0])
              end
    end = inr (c, nat1, evs) /\ count is_write_to evs = 0%nat).
  { destruct Hsock as [H | [H1 H2]].
    - rewrite H. eauto.
    - rewrite H1, H2. eauto. }
  destruct Hfound as (nat1 & evs & Hfound & Hevs).
  assert (Hcount : forall tr,
    count is_write_to (EvPoolGet :: evs ++ tr ++ dns_cleanup srcAddr c)
    = count is_write_to tr).
  { intros tr. unfold count in *. cbn [List.filter is_write_to].
    rewrite !List.filter_app, !length_app, Hevs. cbn. lia. }
  split.
  - intros Hfit.
    rewrite copy_at_Some by (rewrite ?len_copy; lia).
    rewrite Hfound.
    set (buffer2 := take _ _ ++ _).
    assert (Hb2 : buffer2 = addrBytes ++ data
                    ++ drop (length addrBytes + length data) buffer).
    { subst buffer2. unfold len in *. rewrite Nat2Z.id.
      rewrite copy_short by lia.
      rewrite take_app_length, drop_app_length.
      rewrite copy_short by (rewrite length_drop; lia).
      now rewrite drop_drop. }
    rewrite slice_Some
      by (rewrite ?Hb2, ?len_app; pose proof (len_nonneg
            (drop (length addrBytes + length data) buffer)); lia).
    rewrite Z.sub_0_r, drop_0.
    assert (Hout : take (Z.to_nat (len addrBytes + len data)) buffer2
                   = addrBytes ++ data).
    { rewrite Hb2, app_assoc. apply take_app_length'.
      rewrite length_app. unfold len. lia. }
    rewrite Hout.
    assert (Hin : forall (r : result (list byte)) nat2 tr,
      In (EvWriteTo c (addrBytes ++ data)) tr -> count is_write_to tr = 1%nat ->
      In (EvWriteTo c (addrBytes ++ data))
         (r, nat2 : gmap string conn, EvPoolGet :: evs ++ tr ++ dns_cleanup srcAddr c).2
      /\ count is_write_to
           (r, nat2, EvPoolGet :: evs ++ tr ++ dns_cleanup srcAddr c).2 = 1%nat).
    { intros r nat2 tr H1 H2. cbn [snd]. rewrite Hcount. split; [|exact H2].
      right. apply in_app_iff. right. apply in_app_iff. now left. }
    destruct (dns_write env) as [e|]; [apply Hin; [now left | reflexivity]|].
    destruct (dns_read env) as [e | dgram]; [apply Hin; [now left | reflexivity]|].
    unfold read_into.
    destruct (_ <=? _); [apply Hin; [now left | reflexivity]|].
    destruct (make _); [|apply Hin; [now left | reflexivity]].
    destruct (slice _ _ _); apply Hin; try (now left); reflexivity.
  - intros Hbig.
    destruct (copy_at _ _ data) as [buffer2|] eqn:Ec; [|split; reflexivity].
    rewrite Hfound.
    assert (Hlen : len buffer2 = len buffer).
    { unfold len. f_equal. apply copy_at_length in Ec.
      now rewrite Ec, copy_length. }
    unfold slice. rewrite Hlen.
    rewrite (proj2 (Z.leb_gt _ _) Hbig), andb_false_r.
    cbn [fst snd]. split; [reflexivity|]. rewrite Hcount. reflexivity.
Qed.

(** *** RelayTCPData *)

(** X6: what [RelayTCPData] returns once the copies have run.  On the plain
    tunnel the first count is that of [io.Copy(src, dst)], remote to client,
    and the second that of [io.Copy(dst, src)]; over a mux stream the first
    count is that of [io.Copy(kcpConn, srcConn)], client to remote, and the
    second that of [io.Copy(srcConn, kcpConn)].  On both, the error is that
    of the copy the caller ran itself if it has one, and else that of the
    other copy. *)
Theorem RelayTCPData_byte_counts env src originDst :
  tcp_convert env = inr originDst ->
  (forall dst, tcp_dial env = inr dst -> tcp_write env = None ->
     (RelayTCPData env false src).1
     = ((tcp_down env).1, (tcp_up env).1,
        match (tcp_down env).2 with None => (tcp_up env).2 | Some e => Some e end))
  /\ (forall kcpConn, tcp_kcp_get env = inr kcpConn -> tcp_kcp_write env = None ->
     (RelayTCPData env true src).1
     = ((tcp_kcp_up env).1, (tcp_kcp_down env).1,
        match (tcp_kcp_up env).2 with None => (tcp_kcp_down env).2 | Some e => Some e end)).
Proof.
  intros Hc. split.
  - intros dst Hd Hw. unfold RelayTCPData, createTCPConn. now rewrite Hc, Hd, Hw.
  - intros k Hk Hw. unfold RelayTCPData, relayKCPData. now rewrite Hc, Hk, Hw.
Qed.

(** X7: [RelayTCPData] closes what it opens.  A call in which no copy ran
    returns an error and two zero counts; a connection it dialled is closed
    by it once, as its last act; and when the mux transport gives a stream
    it dials nothing and closes the stream once, as its last act. *)
Theorem RelayTCPData_closes_what_it_opens env kcpBackend src :
  let out := RelayTCPData env kcpBackend src in
  (count is_copy_both_ways out.2 = 0%nat -> exists e, out.1 = (0, 0, Some e))
  /\ (forall c, In (EvSetKeepAlive c) out.2 ->
        exists pre, out.2 = pre ++ [EvClose c] /\ count (is_close_of c) pre = 0%nat)
  /\ (forall originDst kcpConn,
        kcpBackend = true -> tcp_convert env = inr originDst ->
        tcp_kcp_get env = inr kcpConn ->
        ~ In EvDialTCP out.2
        /\ exists pre, out.2 = pre ++ [EvClose kcpConn]
                       /\ count (is_close_of kcpConn) pre = 0%nat).
Proof.
  cbv zeta. unfold RelayTCPData, relayKCPData, createTCPConn.
  destruct (tcp_convert env) as [e0 | originDst].
  { cbn. split; [eauto|]. split; [intros c []|]. intros ? ? _ [=]. }
  destruct kcpBackend.
  - destruct (tcp_kcp_get env) as [e1 | k].
    + destruct (tcp_dial env) as [e2 | dst].
      { cbn. split; [eauto|]. split.
        - intros c [H | [H | []]]; discriminate.
        - intros ? ? _ _ [=]. }
      destruct (tcp_write env) as [e3|].
      * cbn. split; [eauto|]. split.
        -- intros c [H | [H | [H | [H | [H | [H | [H | []]]]]]]]; try discriminate.
           injection H as <-.
           eexists [_; _; _; _; _; _]. split; reflexivity.
        -- intros ? ? _ _ [=].
      * cbn. split; [discriminate|]. split.
        -- intros c [H | [H | [H | [H | [H | [H | [H | [H | []]]]]]]]];
             try discriminate.
           injection H as <-.
           eexists [_; _; _; _; _; _; _]. split; reflexivity.
        -- intros ? ? _ _ [=].
    + destruct (tcp_kcp_write env) as [e3|].
      * cbn. split; [eauto|]. split.
        -- intros c [H | [H | [H | [H | [H | []]]]]]; discriminate.
        -- intros ? k' _ _ [= <-]. split.
           ++ intros [H | [H | [H | [H | [H | []]]]]]; discriminate.
           ++ eexists [_; _; _; _]. split; reflexivity.
      * cbn. split; [discriminate|]. split.
        -- intros c [H | [H | [H | [H | [H | [H | []]]]]]]; discriminate.
        -- intros ? k' _ _ [= <-]. split.
           ++ intros [H | [H | [H | [H | [H | [H | []]]]]]]; discriminate.
           ++ eexists [_; _; _; _; _]. split; reflexivity.
  - destruct (tcp_dial env) as [e2 | dst].
    { cbn. split; [eauto|]. split.
      - intros c [H | []]; discriminate.
      - intros ? ? [=]. }
    destruct (tcp_write env) as [e3|].
    + cbn. split; [eauto|]. split.
      * intros c [H | [H | [H | [H | [H | [H | []]]]]]]; try discriminate.
        injection H as <-.
        eexists [_; _; _; _; _]. split; reflexivity.
      * intros ? ? [=].
    + cbn. split; [discriminate|]. split.
      * intros c [H | [H | [H | [H | [H | [H | [H | []]]]]]]]; try discriminate.
        injection H as <-.
        eexists [_; _; _; _; _; _]. split; reflexivity.
      * intros ? ? [=].
Qed.

(** *** Life cycle of the UDP NAT entries, with [Stop] *)

Lemma nat_step_closed_in_pairs a b b' :
  nat_step a b = Some b' -> closed_in_pairs b -> closed_in_pairs b'.
Proof.
  intros H Hc.
  assert (Hupd : forall i e f,
    created b !! i = Some e ->
    ((src_closes_at (ne_pc (f e)) <= ne_src_closes (f e))%nat
     /\ (dst_closes_at (ne_pc (f e)) <= ne_dst_closes (f e))%nat
     /\ (ne_src_closes (f e) - src_closes_at (ne_pc (f e))
         = ne_dst_closes (f e) - dst_closes_at (ne_pc (f e)))%nat) ->
    forall j e', <[i := f e]> (created b) !! j = Some e' ->
      (src_closes_at (ne_pc e') <= ne_src_closes e')%nat
      /\ (dst_closes_at (ne_pc e') <= ne_dst_closes e')%nat
      /\ (ne_src_closes e' - src_closes_at (ne_pc e')
          = ne_dst_closes e' - dst_closes_at (ne_pc e'))%nat).
  { intros i e f He Hf j e' Hj.
    destruct (decide (i = j)) as [<- | Hne].
    - rewrite list_lookup_insert_eq in Hj by (eapply lookup_lt_Some; eauto).
      now injection Hj as <-.
    - rewrite list_lookup_insert_ne in Hj by exact Hne. now apply (Hc j). }
  destruct a as [key | i | i | i | i | ]; cbn in H.
  - injection H as <-. intros j e' Hj. cbn in Hj.
    apply lookup_app_Some in Hj as [Hj | [_ Hj]]; [now apply (Hc j)|].
    destruct (j - length (created b))%nat; [|destruct n; discriminate].
    injection Hj as <-. cbn. lia.
  - apply backend_facts.reader_step_Some in H as (e & He & Hpc & ->).
    destruct (Hc i e He) as (H1 & H2 & H3). rewrite Hpc in *.
    intros j e'. cbn. apply (Hupd i e (set_pc RCopying)); cbn in *; [exact He | lia].
  - apply backend_facts.reader_step_Some in H as (e & He & Hpc & ->).
    destruct (Hc i e He) as (H1 & H2 & H3). rewrite Hpc in *.
    intros j e'. cbn. apply (Hupd i e (set_pc RDeleted)); cbn in *; [exact He | lia].
  - apply backend_facts.reader_step_Some in H as (e & He & Hpc & ->).
    destruct (Hc i e He) as (H1 & H2 & H3). rewrite Hpc in *.
    intros j e'. cbn.
    apply (Hupd i e (fun e => set_pc RSrcClosed (close_src e))); cbn in *;
      [exact He | lia].
  - apply backend_facts.reader_step_Some in H as (e & He & Hpc & ->).
    destruct (Hc i e He) as (H1 & H2 & H3). rewrite Hpc in *.
    intros j e'. cbn.
    apply (Hupd i e (fun e => set_pc RDone (close_dst e))); cbn in *;
      [exact He | lia].
  - injection H as <-. intros j e' Hj. cbn in Hj.
    rewrite list_lookup_imap in Hj.
    destruct (created b !! j) as [e|] eqn:He; [|discriminate].
    injection Hj as <-. destruct (Hc j e He) as (H1 & H2 & H3).
    unfold stop_entry. destruct (decide _); cbn; lia.
Qed.

Lemma nat_run_closed_in_pairs tr b b' :
  nat_run tr b = Some b' -> closed_in_pairs b -> closed_in_pairs b'.
Proof.
  revert b. induction tr as [|a tr IH]; intros b H Hc; cbn in H.
  - now injection H as <-.
  - destruct (nat_step a b) as [b1|] eqn:E; [|discriminate].
    eapply IH; [exact H|]. eapply nat_step_closed_in_pairs; eauto.
Qed.

(** X8: in every run, with or without [Stop]: an entry is in the NAT map
    only under the key it was made for and only while its reader is between
    [Add] and [Del]. *)
Theorem nat_map_holds_copying_entries tr b k i :
  nat_run tr fresh_backend = Some b ->
  udpNatMap_ b !! k = Some i ->
  exists e, created b !! i = Some e /\ ne_key e = k /\ ne_pc e = RCopying.
Proof.
  intros Hrun Hk.
  exact (backend_facts.nat_run_inv _ _ _ Hrun backend_facts.fresh_backend_inv k i Hk).
Qed.

Lemma nat_map_holds_copying_entries_witness :
  exists b e,
    nat_run (take 3 examples.stop_while_copying) fresh_backend = Some b
    /\ created b !! 0%nat = Some e
    /\ ne_key e = "192.168.1.5:40000->8.8.8.8:53" /\ ne_pc e = RCopying.
Proof.
  destruct (nat_map_holds_copying_entries (take 3 examples.stop_while_copying) _
              "192.168.1.5:40000->8.8.8.8:53" 0%nat eq_refl eq_refl)
    as (e & H1 & H2 & H3).
  eexists. exists e. split; [reflexivity|]. auto.
Defined.

(** X9: in every run, with or without [Stop]: each socket of an entry has
    been closed at least as often as its reader has closed it, so both
    sockets of an entry whose reader is through have been closed; and the
    two sockets of an entry have received the same number of further
    [Close] calls. *)
Theorem nat_sockets_closed_at_least_once tr b i e :
  nat_run tr fresh_backend = Some b ->
  created b !! i = Some e ->
  (src_closes_at (ne_pc e) <= ne_src_closes e)%nat
  /\ (dst_closes_at (ne_pc e) <= ne_dst_closes e)%nat
  /\ (ne_src_closes e - src_closes_at (ne_pc e)
      = ne_dst_closes e - dst_closes_at (ne_pc e))%nat
  /\ (ne_pc e = RDone -> (1 <= ne_src_closes e)%nat /\ (1 <= ne_dst_closes e)%nat).
Proof.
  intros Hrun He.
  assert (Hc : closed_in_pairs fresh_backend) by (intros j e' H; discriminate H).
  destruct (nat_run_closed_in_pairs _ _ _ Hrun Hc i e He) as (H1 & H2 & H3).
  split; [exact H1|]. split; [exact H2|]. split; [exact H3|].
  intros Hp. rewrite Hp in *. cbn in *. lia.
Qed.

Lemma nat_sockets_closed_at_least_once_witness :
  exists b e,
    nat_run examples.stop_while_copying fresh_backend = Some b
    /\ created b !! 0%nat = Some e
    /\ (1 <= ne_src_closes e)%nat /\ (1 <= ne_dst_closes e)%nat.
Proof.
  eexists. eexists. split; [reflexivity|]. split; [reflexivity|].
  exact (proj2 (proj2 (proj2
    (nat_sockets_closed_at_least_once examples.stop_while_copying _ 0%nat _
       eq_refl eq_refl))) eq_refl).
Defined.

(** X10: [Stop], whenever it runs, leaves the NAT map as it is, closes both
    sockets of every entry that is in the map, once each, and touches no
    other entry. *)
Theorem Stop_closes_the_entries_in_the_map tr b b' :
  nat_run tr fresh_backend = Some b ->
  nat_step AStop b = Some b' ->
  udpNatMap_ b' = udpNatMap_ b
  /\ (forall k i, udpNatMap_ b !! k = Some i ->
        exists e, created b !! i = Some e
          /\ created b' !! i = Some (close_dst (close_src e)))
  /\ (forall i e, created b !! i = Some e ->
        udpNatMap_ b !! ne_key e <> Some i -> created b' !! i = Some e).
Proof.
  intros Hrun [= <-]. cbn. split; [reflexivity|]. split.
  - intros k i Hk.
    destruct (backend_facts.nat_run_inv _ _ _ Hrun backend_facts.fresh_backend_inv k i Hk)
      as (e & He & Hkey & _).
    exists e. split; [exact He|].
    rewrite list_lookup_imap, He. cbn. unfold stop_entry.
    rewrite Hkey. now destruct (decide _).
  - intros i e He Hout. rewrite list_lookup_imap, He. cbn. unfold stop_entry.
    now destruct (decide _).
Qed.

Lemma Stop_closes_the_entries_in_the_map_witness :
  exists b b' e,
    nat_run (take 2 examples.stop_while_copying) fresh_backend = Some b
    /\ nat_step AStop b = Some b'
    /\ created b !! 0%nat = Some e
    /\ created b' !! 0%nat = Some (close_dst (close_src e)).
Proof.
  destruct (proj1 (proj2
    (Stop_closes_the_entries_in_the_map (take 2 examples.stop_while_copying) _ _
       eq_refl eq_refl)) "192.168.1.5:40000->8.8.8.8:53" 0%nat eq_refl)
    as (e & H1 & H2).
  eexists. eexists. exists e. split; [reflexivity|]. split; [reflexivity|]. auto.
Defined.

(** *** The proxy client *)

Lemma getBackendProxy_head backends_ isUDP :
  getBackendProxy backends_ isUDP = Some (head backends_).
Proof.
  unfold getBackendProxy, index.
  destruct backends_ as [|b l]; [reflexivity|].
  assert (H : 0 < len (b :: l)) by (unfold len; cbn [length]; lia).
  rewrite (proj2 (Z.ltb_lt _ _) H). cbn.
  destruct isUDP; cbn; [reflexivity|]. now destruct (_ =? 1).
Qed.

(** X11: [getBackendProxy] never panics; it returns nil exactly when there
    is no backend, and otherwise the first backend, whatever their number,
    for TCP and for UDP. *)
Theorem getBackendProxy_is_the_first backends_ isUDP :
  getBackendProxy backends_ isUDP = Some (head backends_)
  /\ (getBackendProxy backends_ isUDP = Some None <-> backends_ = []).
Proof.
  rewrite getBackendProxy_head. split; [reflexivity|].
  destruct backends_; cbn; split; congruence.
Qed.

Lemma udp_send_pool_balanced env udpProxy bufSize newBuffer data dataLen :
  count is_pool_get (udp_send env udpProxy bufSize newBuffer data dataLen).2
  = count is_pool_put (udp_send env udpProxy bufSize newBuffer data dataLen).2.
Proof.
  unfold udp_send.
  destruct (bufSize <? _).
  - destruct (make _); [|reflexivity].
    destruct (slice l 0 _); [|reflexivity].
    destruct (slice data 0 _); [|reflexivity].
    destruct (copy_at _ _ _); [|reflexivity].
    destruct (udp_write env); reflexivity.
  - destruct (slice data 0 _); [|reflexivity].
    destruct (copy_at _ _ _); [|reflexivity].
    destruct (slice _ 0 _); [|reflexivity].
    destruct (udp_write env); reflexivity.
Qed.

Lemma RelayUDPData_pool_balanced
    env nat_ udpTimeout srcAddr dstAddr bufSize newBuffer data dataLen :
  count is_pool_get
    (RelayUDPData env nat_ udpTimeout srcAddr dstAddr bufSize newBuffer data dataLen).2
  = count is_pool_put
    (RelayUDPData env nat_ udpTimeout srcAddr dstAddr bufSize newBuffer data dataLen).2.
Proof.
  unfold RelayUDPData, udp_entry.
  assert (Hsend : forall udpProxy tr0,
    count is_pool_get tr0 = 0%nat -> count is_pool_put tr0 = 0%nat ->
    count is_pool_get
      (let '(r, tr') := udp_send env udpProxy bufSize newBuffer data dataLen in
       (r, tr0 ++ EvSetReadDeadline (dst_ udpProxy) :: tr')).2
    = count is_pool_put
      (let '(r, tr') := udp_send env udpProxy bufSize newBuffer data dataLen in
       (r, tr0 ++ EvSetReadDeadline (dst_ udpProxy) :: tr')).2).
  { intros udpProxy tr0 H1 H2.
    pose proof (udp_send_pool_balanced env udpProxy bufSize newBuffer data dataLen) as Hs.
    destruct (udp_send _ _ _ _ _ _) as [r tr']. cbn [snd] in *.
    unfold count in *. rewrite !List.filter_app, !length_app, H1, H2. cbn.
    exact Hs. }
  destruct (nat_ !! _); [now apply Hsend|].
  destruct (udp_listen env); [reflexivity|].
  destruct (udp_dial env); [reflexivity|].
  destruct (createUDPProxyEntry _ _ _ _ _ _); [reflexivity|].
  now apply Hsend.
Qed.

Lemma backend_events_map tr : backend_events (map CBackend tr) = tr.
Proof.
  induction tr as [|e tr IH]; [reflexivity|].
  change (e :: backend_events (map CBackend tr) = e :: tr). now rewrite IH.
Qed.

Lemma backend_events_app tr1 tr2 :
  backend_events (tr1 ++ tr2) = backend_events tr1 ++ backend_events tr2.
Proof. apply flat_map_app. Qed.

Lemma filter_map_CBackend p tr :
  (forall e, p (CBackend e) = false) -> List.filter p (map CBackend tr) = [].
Proof.
  intros Hp. induction tr as [|e tr IH]; cbn; [reflexivity|]. now rewrite Hp.
Qed.

(** X12: the UDP worker gives back both buffers it was handed, on every
    path: the ancillary buffer first, before the backend does anything, the
    payload buffer last, each once; and the backend, in between, gives back
    every pool buffer it borrows. *)
Theorem handleUDP_returns_its_buffers
    env extract backends_ bufSize newBuffer buffer srcAddr dataLen :
  let tr :=
    (handleUDP env extract backends_ bufSize newBuffer buffer srcAddr dataLen).2 in
  head tr = Some CPutOOB
  /\ last tr = Some CPutPayload
  /\ length (List.filter is_put_oob tr) = 1%nat
  /\ length (List.filter is_put_payload tr) = 1%nat
  /\ count is_pool_get (backend_events tr) = count is_pool_put (backend_events tr).
Proof.
  cbv zeta. unfold handleUDP.
  destruct extract as [e | dstAddr]; [repeat split|].
  rewrite getBackendProxy_head.
  destruct (head backends_) as [backendProxy|]; [|repeat split].
  pose proof (RelayUDPData_pool_balanced env (udpNatEntries backendProxy)
                (udpTimeout_ backendProxy) srcAddr dstAddr bufSize newBuffer buffer
                dataLen) as Hb.
  destruct (RelayUDPData _ _ _ _ _ _ _ _ _) as [r tr]. cbn [snd] in Hb.
  assert (Hshape : forall suffix,
    (suffix = [CPutPayload] \/ suffix = [CLogError "Relay UDP failed"; CPutPayload]) ->
    let tr' := CPutOOB :: map CBackend tr ++ suffix in
    head tr' = Some CPutOOB
    /\ last tr' = Some CPutPayload
    /\ length (List.filter is_put_oob tr') = 1%nat
    /\ length (List.filter is_put_payload tr') = 1%nat
    /\ count is_pool_get (backend_events tr') = count is_pool_put (backend_events tr')).
  { intros suffix Hs tr'. subst tr'.
    split; [reflexivity|]. split.
    { destruct Hs as [-> | ->].
      - rewrite app_comm_cons. apply last_snoc.
      - change [CLogError "Relay UDP failed"; CPutPayload]
          with ([CLogError "Relay UDP failed"] ++ [CPutPayload]).
        rewrite app_comm_cons, app_assoc. apply last_snoc. }
    assert (Hbe : backend_events (CPutOOB :: map CBackend tr ++ suffix) = tr).
    { change (backend_events (CPutOOB :: map CBackend tr ++ suffix))
        with (backend_events (map CBackend tr ++ suffix)).
      rewrite backend_events_app, backend_events_map.
      destruct Hs as [-> | ->]; cbn; apply app_nil_r. }
    rewrite Hbe.
    cbn [List.filter is_put_oob is_put_payload].
    rewrite !List.filter_app, !filter_map_CBackend by reflexivity.
    destruct Hs as [-> | ->]; cbn; auto. }
  destruct r; cbn [snd]; apply Hshape; auto.
Qed.

(** *** Concrete calls *)

Lemma RelayUDPData_sends_header_and_payload_witness :
  RelayUDPData examples.udp_env ∅ (60 * Second) "192.168.1.5:40000" "8.8.8.8:53"
    64 (replicate 64 Byte.x00) (replicate 64 Byte.xaa) 3
  = (Ok tt,
     [EvListenPacket 5%nat; EvDialTransparentUDP 4%nat;
      EvSpawnReader "192.168.1.5:40000->8.8.8.8:53" examples.udp_flow;
      EvSetReadDeadline 5%nat; EvPoolGet;
      EvWriteTo 5%nat (examples.resolver_header ++ [Byte.xaa; Byte.xaa; Byte.xaa]);
      EvPoolPut]).
Proof.
  exact (RelayUDPData_sends_header_and_payload examples.udp_env ∅ (60 * Second)
           "192.168.1.5:40000" "8.8.8.8:53" 64 (replicate 64 Byte.x00)
           (replicate 64 Byte.xaa) 3 examples.udp_flow _ eq_refl
           ltac:(vm_compute; split; discriminate)
           ltac:(vm_compute; discriminate)).
Defined.

Lemma RelayDNS_sends_header_and_query_witness :
  let out := RelayDNS examples.dns_reply_env ∅ "192.168.1.5:40000" "8.8.8.8:53"
               [Byte.x12; Byte.x34] (replicate 64 Byte.x00) in
  In (EvWriteTo 3%nat (examples.resolver_header ++ [Byte.x12; Byte.x34])) out.2
  /\ count is_write_to out.2 = 1%nat.
Proof.
  exact (proj1
    (RelayDNS_sends_header_and_query examples.dns_reply_env ∅ "192.168.1.5:40000"
       "8.8.8.8:53" [Byte.x12; Byte.x34] (replicate 64 Byte.x00)
       examples.resolver_header 3%nat eq_refl (or_intror (conj eq_refl eq_refl)))
    ltac:(vm_compute; discriminate)).
Defined.

Lemma RelayTCPData_byte_counts_witness :
  (RelayTCPData examples.tcp_env false 9%nat).1 = (4096, 120, Some (Ext 2)).
Proof.
  exact (proj1
    (RelayTCPData_byte_counts examples.tcp_env 9%nat _ eq_refl) 6%nat eq_refl eq_refl).
Defined.

Lemma RelayDNS_map_without_client env nat_ srcAddr dnsAddr data buffer addrBytes :
  dns_convert env dnsAddr = inr addrBytes ->
  len addrBytes <= len buffer ->
  (is_Some (nat_ !! srcAddr) \/ exists c, dns_listen env = inr c) ->
  (RelayDNS env nat_ srcAddr dnsAddr data buffer).1.2 = delete srcAddr nat_.
Proof.
  intros Hc Hfit Hsock.
  pose proof (len_nonneg addrBytes) as Ha.
  unfold RelayDNS. rewrite Hc. cbv zeta.
  rewrite copy_at_Some by (rewrite ?len_copy; lia).
  set (buffer2 := take _ _ ++ _).
  set (found := match nat_ !! srcAddr with Some _ => _ | None => _ end).
  assert (Hfound : exists c nat1 evs,
            found = inr (c, nat1, evs) /\ delete srcAddr nat1 = delete srcAddr nat_).
  { subst found. destruct (nat_ !! srcAddr) as [c|] eqn:E; [eauto|].
    destruct Hsock as [[c Hs] | [c Hs]]; [discriminate|]. rewrite Hs.
    do 3 eexists. split; [reflexivity | apply delete_insert_eq]. }
  destruct Hfound as (c & nat1 & evs & -> & Hdel).
  destruct (slice buffer2 0 _); [|exact Hdel].
  destruct (dns_write env); [exact Hdel|].
  destruct (dns_read env); [exact Hdel|].
  unfold read_into. destruct (_ <=? _); [exact Hdel|].
  destruct (make _); [|exact Hdel].
  destruct (slice _ _ _); exact Hdel.
Qed.

(** X28: when the datagram that comes back is not longer than the header
    of the resolver, [RelayDNS] returns the error "Read DNS query empty" and
    no response, and the client is out of the DNS NAT map. *)
Theorem RelayDNS_short_datagram_is_an_error
    env nat_ srcAddr dnsAddr data buffer addrBytes dgram :
  dns_convert env dnsAddr = inr addrBytes ->
  len addrBytes + len data <= len buffer ->
  (is_Some (nat_ !! srcAddr) \/ exists c, dns_listen env = inr c) ->
  dns_write env = None ->
  dns_read env = inr dgram ->
  len dgram <= len addrBytes ->
  let out := RelayDNS env nat_ srcAddr dnsAddr data buffer in
  out.1.1 = Go.Err (New "Read DNS query empty")
  /\ out.1.2 !! srcAddr = None.
Proof.
  intros Hc Hfit Hsock Hw Hr Hshort out. subst out. split.
  - rewrite (backend_facts.RelayDNS_after_read _ _ _ _ _ _ _ _ Hc Hfit Hsock Hw Hr).
    assert (H : Z.min (len dgram) (len buffer) <= len addrBytes)
      by (pose proof (Z.le_min_l (len dgram) (len buffer)); lia).
    now rewrite (proj2 (Z.leb_le _ _) H).
  - rewrite (RelayDNS_map_without_client _ _ _ _ _ _ _ Hc); auto.
    + apply lookup_delete_eq.
    + pose proof (len_nonneg data). lia.
Qed.

Lemma RelayDNS_short_datagram_is_an_error_witness :
  let out := RelayDNS examples.dns_short_env ∅ "192.168.1.5:40000" "8.8.8.8:53"
               [Byte.x12; Byte.x34] (replicate 64 Byte.x00) in
  out.1.1 = Go.Err (New "Read DNS query empty")
  /\ out.1.2 !! "192.168.1.5:40000" = None.
Proof.
  exact (RelayDNS_short_datagram_is_an_error examples.dns_short_env ∅
           "192.168.1.5:40000" "8.8.8.8:53" [Byte.x12; Byte.x34]
           (replicate 64 Byte.x00) examples.resolver_header examples.resolver_header
           eq_refl ltac:(vm_compute; discriminate)
           (or_intror (ex_intro _ 3%nat eq_refl)) eq_refl eq_refl
           ltac:(vm_compute; discriminate)).
Defined.

(** *** computeUDPKey *)

(** X29: flows whose client addresses have no hyphen in them have the same
    NAT key only when they have the same client address and the same
    destination. *)
Theorem computeUDPKey_injective src1 dst1 src2 dst2 :
  no_hyphen src1 = true -> no_hyphen src2 = true ->
  computeUDPKey src1 dst1 = computeUDPKey src2 dst2 ->
  src1 = src2 /\ dst1 = dst2.
Proof.
  unfold computeUDPKey. revert src2.
  assert (E0 : forall s, "" +:+ s = s) by reflexivity.
  assert (E1 : forall c s t, String c s +:+ t = String c (s +:+ t)) by reflexivity.
  induction src1 as [|c1 s1 IH]; intros [|c2 s2] H1 H2 H; cbn in H1, H2;
    rewrite ?E1, ?E0 in H.
  - split; congruence.
  - injection H as Hc _. subst c2. discriminate H2.
  - injection H as Hc _. subst c1. discriminate H1.
  - injection H as Hc H. subst c2.
    apply andb_true_iff in H1 as [_ H1]. apply andb_true_iff in H2 as [_ H2].
    destruct (IH s2 H1 H2 H) as [Hs Hd]. subst. auto.
Qed.

Lemma computeUDPKey_injective_witness :
  computeUDPKey "192.168.1.5:40000" "8.8.8.8:53"
    = computeUDPKey "192.168.1.5:40000" "8.8.8.8:53"
  /\ "192.168.1.5:40000" = "192.168.1.5:40000" /\ "8.8.8.8:53" = "8.8.8.8:53".
Proof.
  split; [reflexivity|].
  exact (computeUDPKey_injective "192.168.1.5:40000" "8.8.8.8:53"
           "192.168.1.5:40000" "8.8.8.8:53" eq_refl eq_refl eq_refl).
Defined.

End backend_more.

(** ** More on the DNS server *)

Module dns_more.
Import dns_proxy.

(** *** The cache: insert, look up, delete *)

Lemma int64_small x : - 2 ^ 63 <= x < 2 ^ 63 -> int64 x = x.
Proof.
  intros H. unfold int64. rewrite Z.mod_small by lia. lia.
Qed.

Lemma ttl_duration t : 0 <= t < 2 ^ 32 ->
  int64 (Z.shiftr t 1 * Second) = t / 2 * Second
  /\ int64 (t * Second) = t * Second
  /\ t / 2 * Second <= t * Second.
Proof.
  intros H. rewrite Z.shiftr_div_pow2 by lia. change (2 ^ 1) with 2.
  assert (0 <= t / 2 <= t) by (split; [apply Z.div_pos; lia | apply Z.div_le_upper_bound; lia]).
  unfold Second. rewrite !int64_small by lia. lia.
Qed.

(** The run of [AddDnsCache] on a server that caches. *)
Lemma AddDnsCache_run env domain l t w caches :
  dnsCaches (srv w) = Some caches ->
  AddDnsCache env domain l t w
  = (Some tt,
     {| srv := set_caches (Some (<[domain :=
                 {| response := l;
                    halfTtl := clock env (ticks w) + int64 (Z.shiftr t 1 * Second);
                    ttl := clock env (S (ticks w)) + int64 (t * Second) |}]> caches))
               (srv w);
        heap := heap w; next := next w; ticks := S (S (ticks w)); log := log w |}).
Proof.
  intros H. unfold AddDnsCache, bind, get_srv. cbn. now rewrite H.
Qed.

(** X13: [AddDnsCache] on a server that caches, for a TTL that is a
    [uint32], with a clock that does not run backwards: the entry stored
    under the domain holds the response, expires half at the first clock
    reading plus half the TTL and in full at the second reading plus the
    TTL, so that its half deadline is not after its full deadline; no other
    domain is touched. *)
Theorem AddDnsCache_deadlines_ordered env domain l t w caches :
  dnsCaches (srv w) = Some caches ->
  0 <= t < 2 ^ 32 ->
  clock env (ticks w) <= clock env (S (ticks w)) ->
  exists caches' e,
    dnsCaches (srv (AddDnsCache env domain l t w).2) = Some caches'
    /\ caches' !! domain = Some e
    /\ response e = l
    /\ halfTtl e = clock env (ticks w) + t / 2 * Second
    /\ ttl e = clock env (S (ticks w)) + t * Second
    /\ halfTtl e <= ttl e
    /\ forall d, d <> domain -> caches' !! d = caches !! d.
Proof.
  intros Hc Ht Hclock. rewrite (AddDnsCache_run _ _ _ _ _ _ Hc). cbn.
  destruct (ttl_duration t Ht) as (H1 & H2 & H3).
  eexists. eexists. split; [reflexivity|]. rewrite lookup_insert_eq.
  split; [reflexivity|]. cbn. rewrite H1, H2.
  repeat split; try lia.
  intros d Hd. now rewrite lookup_insert_ne.
Qed.

Lemma AddDnsCache_deadlines_ordered_witness :
  exists caches' e,
    dnsCaches (srv (AddDnsCache (examples.example_env (1000 * Second)) "example.org"
                      0%nat 300 examples.example_world).2) = Some caches'
    /\ caches' !! "example.org" = Some e
    /\ halfTtl e = 1150 * Second /\ ttl e = 1300 * Second.
Proof.
  destruct (AddDnsCache_deadlines_ordered (examples.example_env (1000 * Second))
              "example.org" 0%nat 300 examples.example_world _ eq_refl
              ltac:(vm_compute; split; [discriminate | reflexivity])
              ltac:(vm_compute; discriminate))
    as (caches' & e & H1 & H2 & _ & H3 & H4 & _).
  exists caches', e. split; [exact H1|]. split; [exact H2|].
  split; [exact H3 | exact H4].
Defined.

(** The run of [GetDnsCache] on an entry that is there. *)
Lemma GetDnsCache_run env domain w caches res :
  dnsCaches (srv w) = Some caches ->
  caches !! domain = Some res ->
  GetDnsCache env domain w
  = if clock env (ticks w) <? ttl res
    then (Some (Some (response res), halfTtl res <? clock env (ticks w)), ticked 1 w)
    else (Some (None, false),
          {| srv := set_caches (Some (delete domain caches)) (srv w);
             heap := heap w; next := next w; ticks := S (ticks w); log := log w |}).
Proof.
  intros Hc Hr. unfold GetDnsCache, bind, get_srv, time_Now. cbn.
  rewrite Hc, Hr. cbn. unfold Before, After. now destruct (_ <? ttl res).
Qed.

(** X14: insert and look up.  After [AddDnsCache] has stored a response
    under a domain, the next lookup of the domain, at the clock reading
    [now], returns that response as long as [now] is before the full
    deadline, with the refresh flag set exactly when [now] is after the
    half deadline; from the full deadline on it reports a miss and the
    domain is out of the cache.  An answer stored with TTL 0 is never
    served when the clock does not run backwards. *)
Theorem cache_insert_then_lookup env domain l t w caches :
  dnsCaches (srv w) = Some caches ->
  0 <= t < 2 ^ 32 ->
  let half := clock env (ticks w) + t / 2 * Second in
  let full := clock env (S (ticks w)) + t * Second in
  let now := clock env (S (S (ticks w))) in
  let out := GetDnsCache env domain (AddDnsCache env domain l t w).2 in
  (now < full -> out.1 = Some (Some l, half <? now))
  /\ (full <= now ->
      out.1 = Some (None, false)
      /\ dnsCaches (srv out.2) = Some (delete domain caches))
  /\ (t = 0 -> clock env (S (ticks w)) <= now -> out.1 = Some (None, false)).
Proof.
  intros Hc Ht half full now out. subst out.
  rewrite (AddDnsCache_run _ _ _ _ _ _ Hc). cbn [snd].
  erewrite GetDnsCache_run; [|reflexivity|apply lookup_insert_eq].
  cbn [ticks ttl halfTtl response].
  destruct (ttl_duration t Ht) as (H1 & H2 & _). rewrite H1, H2.
  fold half full now.
  assert (Hfull : full <= now ->
    (if now <? full
     then (Some (Some l, half <? now), ticked 1
             {| srv := set_caches (Some (<[domain :=
                         {| response := l; halfTtl := half; ttl := full |}]> caches)) (srv w);
                heap := heap w; next := next w; ticks := S (S (ticks w)); log := log w |})
     else (Some (None, false),
           {| srv := set_caches (Some (delete domain (<[domain :=
                         {| response := l; halfTtl := half; ttl := full |}]> caches)))
                       (set_caches (Some (<[domain :=
                         {| response := l; halfTtl := half; ttl := full |}]> caches)) (srv w));
              heap := heap w; next := next w; ticks := S (S (S (ticks w)));
              log := log w |})).1 = Some (None, false)).
  { intros H. now rewrite (proj2 (Z.ltb_ge _ _) H). }
  split; [|split].
  - intros H. now rewrite (proj2 (Z.ltb_lt _ _) H).
  - intros H. split; [now apply Hfull|].
    rewrite (proj2 (Z.ltb_ge _ _) H). cbn. now rewrite delete_insert_eq.
  - intros -> H. apply Hfull. subst full. lia.
Qed.

Lemma cache_insert_then_lookup_witness :
  let env := examples.example_env (1000 * Second) in
  (GetDnsCache env "example.org"
     (AddDnsCache env "example.org" 0%nat 300 examples.example_world).2).1
  = Some (Some 0%nat, false).
Proof.
  exact (proj1
    (cache_insert_then_lookup (examples.example_env (1000 * Second)) "example.org"
       0%nat 300 examples.example_world _ eq_refl
       ltac:(vm_compute; split; [discriminate | reflexivity]))
    ltac:(reflexivity)).
Defined.

(** X15: delete and look up.  After [DelDnsCache] a lookup of the domain
    reports a miss, and a lookup of any other domain gives what it would
    have given without the deletion. *)
Theorem cache_delete_then_lookup env domain w :
  (GetDnsCache env domain (DelDnsCache domain w).2).1 = Some (None, false)
  /\ forall d, d <> domain ->
       (GetDnsCache env d (DelDnsCache domain w).2).1 = (GetDnsCache env d w).1.
Proof.
  unfold DelDnsCache, GetDnsCache, bind, get_srv, with_srv, time_Now. cbn.
  destruct (dnsCaches (srv w)) as [caches|] eqn:Ec; cbn.
  - rewrite lookup_delete_eq. split; [reflexivity|].
    intros d Hd. rewrite lookup_delete_ne by congruence.
    destruct (caches !! d) as [res|]; [|reflexivity]. cbn.
    now destruct (Before _ _).
  - rewrite Ec. auto.
Qed.

(** *** checkCache *)

(** The run of [checkCache] when the first question is of class INET and
    names an entry that has not expired. *)
Lemma checkCache_run env r w q qs caches res :
  Question r = q :: qs ->
  Qclass q = ClassINET ->
  dnsCaches (srv w) = Some caches ->
  caches !! TrimSuffix (Name q) "." = Some res ->
  clock env (ticks w) < ttl res ->
  checkCache env r w
  = (Some (Some (response res), halfTtl res <? clock env (ticks w)),
     {| srv := srv w; heap := alter (set_Id (Id r)) (response res) (heap w);
        next := next w; ticks := S (ticks w); log := log w |}).
Proof.
  intros Hq Hc Hs He Hlt.
  unfold checkCache, bind, get_srv. cbn. rewrite Hs, Hq. cbn.
  rewrite Hc, Z.eqb_refl.
  unfold bind. rewrite (GetDnsCache_run _ _ _ _ _ Hs He).
  rewrite (proj2 (Z.ltb_lt _ _) Hlt). reflexivity.
Qed.

(** X16: [checkCache] looks up questions of class INET only, and only on a
    server that caches: when caching is off, or when no question of the
    query is of class INET, it reports a miss and changes nothing, whatever
    the cache holds. *)
Theorem checkCache_skips env r w :
  dnsCaches (srv w) = None
  \/ Forall (fun q => Qclass q <> ClassINET) (Question r) ->
  checkCache env r w = (Some (None, false), w).
Proof.
  intros H. unfold checkCache, bind, get_srv. cbn.
  destruct (dnsCaches (srv w)) as [caches|] eqn:Ec; [|reflexivity].
  destruct H as [H | H]; [discriminate|].
  induction H as [|q qs Hq _ IH]; [reflexivity|].
  cbn. now rewrite (proj2 (Z.eqb_neq _ _) Hq).
Qed.

Lemma checkCache_skips_witness :
  checkCache (examples.example_env (1100 * Second))
    {| Id := 9;
       Question := [{| Name := "example.com."; Qtype := 1; Qclass := 3 |}];
       Answer := []; Ns := []; Extra := [] |}
    examples.example_world
  = (Some (None, false), examples.example_world).
Proof.
  apply checkCache_skips. right. cbn [Question].
  apply List.Forall_cons; [cbn; discriminate | apply List.Forall_nil].
Defined.

(** *** The loop over the answers *)

Lemma ltb_max n m : (if n <? m then m else n) = Z.max n m.
Proof. unfold Z.max, Z.ltb. now destruct (n ?= m). Qed.

Lemma logged_nil w : logged [] w = w.
Proof. destruct w. unfold logged. cbn. now rewrite app_nil_r. Qed.

Lemma logged_app evs1 evs2 w : logged evs2 (logged evs1 w) = logged (evs1 ++ evs2) w.
Proof. unfold logged. cbn. now rewrite app_assoc. Qed.

Lemma scan_answers_run answers st w :
  Forall (fun a => rr_typed a = true) answers ->
  scan_answers answers st w
  = (Some (st.1 || existsb is_inet_A answers, max_ttl answers st.2),
     logged (flat_map routing_update answers) w).
Proof.
  intros H. revert st w.
  induction H as [|a answers Ha _ IH]; intros [c t] w.
  - cbn. now rewrite orb_false_r, logged_nil.
  - cbn [scan_answers existsb flat_map max_ttl fold_left fst snd].
    unfold rr_typed in Ha. unfold is_inet_A, routing_update.
    destruct (Class (Header a) =? ClassINET); cbn [andb orb negb].
    2:{ rewrite IH. reflexivity. }
    rewrite ltb_max.
    destruct (Rrtype (Header a) =? TypeA).
    + destruct (Data a); try discriminate.
      unfold bind, emit. cbn. rewrite IH. cbn [fst snd orb].
      rewrite orb_true_r. fold (max_ttl answers (Z.max t (Ttl (Header a)))).
      f_equal. apply (logged_app [_]).
    + destruct (Rrtype (Header a) =? TypeCNAME).
      * destruct (Data a); try discriminate.
        unfold bind, emit. cbn. rewrite IH. cbn [fst snd].
        fold (max_ttl answers (Z.max t (Ttl (Header a)))).
        f_equal. apply (logged_app [_]).
      * rewrite IH. cbn [fst snd].
        fold (max_ttl answers (Z.max t (Ttl (Header a)))).
        destruct (Data a); reflexivity.
Qed.

(** X17: what the loop over the answers of an upstream response computes,
    when every record has the dynamic type its [Rrtype] announces: the
    response is to be cached exactly when it has an A record of class INET;
    the TTL is the greatest TTL among the records of class INET; each A
    record of class INET goes to the routing map and each CNAME record of
    class INET to the policy list, in the order of the answers; and nothing
    else happens (AAAA records are passed over). *)
Theorem scan_answers_computes answers w :
  Forall (fun a => rr_typed a = true) answers ->
  scan_answers answers (false, 0) w
  = (Some (existsb is_inet_A answers, max_ttl answers 0),
     logged (flat_map routing_update answers) w).
Proof. intros H. exact (scan_answers_run answers (false, 0) w H). Qed.

Lemma scan_answers_computes_witness :
  scan_answers (Answer examples.example_answer) (false, 0) examples.example_world
  = (Some (true, 300),
     logged [EvAddIp "example.com" [Byte.x5d; Byte.xb8; Byte.xd8; Byte.x22]]
       examples.example_world).
Proof.
  apply (scan_answers_computes (Answer examples.example_answer) examples.example_world).
  apply List.Forall_cons; [reflexivity | apply List.Forall_nil].
Defined.

(** *** ServeDNS, path by path *)

Lemma AddDnsCache_total env domain l t w :
  exists w', AddDnsCache env domain l t w = (Some tt, w')
    /\ heap w' = heap w /\ log w' = log w /\ next w' = next w.
Proof.
  unfold AddDnsCache, bind, get_srv. cbn.
  destruct (dnsCaches (srv w)); cbn; eauto.
Qed.

(** The run of [ServeDNS] on a proxied query that is answered from the
    cache without a refresh. *)
Lemma ServeDNS_fresh_hit_run env r w domainName l w1 m :
  blacked env (Question r) = Some domainName ->
  checkCache env r w = (Some (Some l, false), w1) ->
  heap w1 !! l = Some m ->
  ServeDNS env r w = (Some tt, logged [EvWriteMsg m] w1).
Proof.
  intros Hb Hc Hm.
  unfold ServeDNS. cbv beta iota delta [applyFilterChain]. rewrite Hb.
  rewrite (dns_facts.bind_run _ _ _ _ _ Hc). cbn [fst snd].
  assert (Hw : (WriteMsg l ;;; ret true) w1 = (Some true, logged [EvWriteMsg m] w1)).
  { unfold bind, WriteMsg, deref, emit. cbn. now rewrite Hm. }
  rewrite (dns_facts.bind_run _ _ _ _ _ Hw). reflexivity.
Qed.

Lemma ServeDNS_miss_run env r w domainName flag w1 resolver data answer :
  blacked env (Question r) = Some domainName ->
  checkCache env r w = (Some (None, flag), w1) ->
  pick env (remoteResolver (srv w1)) = Some resolver ->
  Pack env r = inr data ->
  ExchangeDNS env (addr resolver) data (timeout (srv w1)) = inr answer ->
  Forall (fun a => rr_typed a = true) (Answer answer) ->
  ServeDNS env r w
  = (Some tt, after_upstream env r domainName resolver data answer w1).
Proof.
  intros Hb Hc Hp Hk Hx Ht.
  unfold ServeDNS. cbv beta iota delta [applyFilterChain]. rewrite Hb.
  rewrite (dns_facts.bind_run _ _ _ _ _ Hc). cbn [fst snd].
  rewrite (dns_facts.bind_run (ret false) _ w1 false w1 eq_refl). cbn [andb].
  assert (Hr : getResolver env true w1 = (Some resolver, w1)).
  { unfold getResolver. now rewrite Hp. }
  rewrite (dns_facts.bind_run _ _ _ _ _ Hr). rewrite Hk.
  rewrite (dns_facts.bind_run get_srv _ w1 (srv w1) w1 eq_refl).
  set (w2 := {| srv := srv w1; heap := heap w1; next := next w1; ticks := ticks w1;
                log := log w1 ++ [EvExchangeDNS (addr resolver) data (timeout (srv w1))] |}).
  rewrite (dns_facts.bind_run (emit _) _ w1 tt w2 eq_refl).
  rewrite Hx.
  set (w2' := {| srv := srv w1; heap := <[next w1 := set_Id (Id r) answer]> (heap w1);
                 next := S (next w1); ticks := ticks w1; log := log w2 |}).
  rewrite (dns_facts.bind_run (alloc _) _ w2 (next w1) w2' eq_refl).
  rewrite (dns_facts.bind_run _ _ _ _ _ (scan_answers_run _ (false, 0) w2' Ht)).
  cbn [fst snd orb].
  set (w3 := logged _ w2').
  rewrite (dns_facts.bind_run get_srv _ w3 (srv w3) w3 eq_refl).
  unfold after_upstream. cbv zeta.
  change (srv w3) with (srv w1).
  destruct (existsb is_inet_A (Answer answer) && bool_decide (dnsCaches (srv w1) <> None)).
  - destruct (AddDnsCache_total env domainName (next w1) (max_ttl (Answer answer) 0) w3)
      as (w4 & Ha & Hh & Hl & Hn).
    rewrite (dns_facts.bind_run _ _ _ _ _ Ha). cbn [negb].
    change (AddDnsCache env domainName (next w1) (max_ttl (Answer answer) 0)
              {| srv := srv w1; heap := <[next w1 := set_Id (Id r) answer]> (heap w1);
                 next := S (next w1); ticks := ticks w1;
                 log := (log w1 ++ [EvExchangeDNS (addr resolver) data (timeout (srv w1))])
                        ++ flat_map routing_update (Answer answer) |})
      with (AddDnsCache env domainName (next w1) (max_ttl (Answer answer) 0) w3).
    rewrite Ha. cbn [snd].
    unfold WriteMsg, bind, deref, emit, logged. rewrite Hh. cbn.
    now rewrite lookup_insert_eq.
  - rewrite (dns_facts.bind_run (ret tt) _ w3 tt w3 eq_refl). cbn [negb].
    unfold WriteMsg, bind, deref, emit. cbn.
    now rewrite lookup_insert_eq.
Qed.

(** X18: a proxied query that gets a cache hit without the refresh flag is
    answered with the cached response, which carries the id of the query,
    and with nothing else: [ServeDNS] ends there, and no query goes through
    the tunnel. *)
Theorem ServeDNS_fresh_hit env r w domainName l w1 m :
  blacked env (Question r) = Some domainName ->
  checkCache env r w = (Some (Some l, false), w1) ->
  heap w1 !! l = Some m ->
  ServeDNS env r w = (Some tt, logged [EvWriteMsg m] w1)
  /\ log (ServeDNS env r w).2 = log w ++ [EvWriteMsg m]
  /\ exists m0, heap w !! l = Some m0 /\ m = set_Id (Id r) m0.
Proof.
  intros Hb Hc Hm.
  rewrite (ServeDNS_fresh_hit_run _ _ _ _ _ _ _ Hb Hc Hm).
  split; [reflexivity|]. split.
  - cbn. apply dns_facts.checkCache_effect in Hc as (_ & _ & -> & _). reflexivity.
  - eapply dns_facts.checkCache_hit_Id; eauto.
Qed.

Lemma ServeDNS_fresh_hit_witness :
  log (ServeDNS (examples.example_env (1100 * Second)) (examples.example_query 4242)
         examples.example_world).2
  = [EvWriteMsg (set_Id 4242 examples.example_answer)].
Proof.
  exact (proj1 (proj2
    (ServeDNS_fresh_hit (examples.example_env (1100 * Second))
       (examples.example_query 4242) examples.example_world
       "example.com" 0%nat _ (set_Id 4242 examples.example_answer)
       eq_refl eq_refl eq_refl))).
Defined.

(** X19: a proxied query that misses the cache and is answered through the
    tunnel: the query is exchanged once; the records of the answer update
    the routing map and the policy list; the answer, given the id of the
    query, is written to the client once, as the last act; and when the
    answer has an A record of class INET and the server caches, the answer
    is stored under the policy-matched name with the greatest TTL of its
    INET records, and else the cache stays as the lookup left it. *)
Theorem ServeDNS_miss_answers_from_upstream
    env r w domainName flag w1 resolver data answer :
  blacked env (Question r) = Some domainName ->
  checkCache env r w = (Some (None, flag), w1) ->
  pick env (remoteResolver (srv w1)) = Some resolver ->
  Pack env r = inr data ->
  ExchangeDNS env (addr resolver) data (timeout (srv w1)) = inr answer ->
  Forall (fun a => rr_typed a = true) (Answer answer) ->
  let out := ServeDNS env r w in
  let t := max_ttl (Answer answer) 0 in
  out.1 = Some tt
  /\ log out.2
     = log w ++ EvExchangeDNS (addr resolver) data (timeout (srv w1))
         :: flat_map routing_update (Answer answer)
         ++ [EvWriteMsg (set_Id (Id r) answer)]
  /\ heap out.2 !! next w1 = Some (set_Id (Id r) answer)
  /\ (existsb is_inet_A (Answer answer) = false ->
      dnsCaches (srv out.2) = dnsCaches (srv w1))
  /\ (existsb is_inet_A (Answer answer) = true ->
      forall caches, dnsCaches (srv w1) = Some caches ->
        dnsCaches (srv out.2)
        = Some (<[domainName :=
                   {| response := next w1;
                      halfTtl := clock env (ticks w1) + int64 (Z.shiftr t 1 * Second);
                      ttl := clock env (S (ticks w1)) + int64 (t * Second) |}]> caches)).
Proof.
  intros Hb Hc Hp Hk Hx Ht out t. subst out t.
  rewrite (ServeDNS_miss_run _ _ _ _ _ _ _ _ _ Hb Hc Hp Hk Hx Ht).
  assert (Hlog : log w1 = log w)
    by (apply dns_facts.checkCache_effect in Hc; tauto).
  unfold after_upstream. cbv zeta. cbn [fst snd].
  split; [reflexivity|].
  destruct (existsb is_inet_A (Answer answer)); cbn [andb].
  - destruct (dnsCaches (srv w1)) as [caches|] eqn:Ec.
    + rewrite bool_decide_true by discriminate.
      erewrite AddDnsCache_run by exact Ec. cbn.
      rewrite Hlog, <- ?app_assoc, lookup_insert_eq.
      repeat split; try discriminate. now intros _ ? [= <-].
    + rewrite bool_decide_false by (intros H; now apply H).
      cbn. rewrite Hlog, <- ?app_assoc, lookup_insert_eq, Ec.
      repeat split; try discriminate.
  - cbn. rewrite Hlog, <- ?app_assoc, lookup_insert_eq.
    repeat split; discriminate.
Qed.

(** X20: a proxied query that misses the cache and cannot be resolved
    through the tunnel, because it does not pack or because the exchange
    fails, gets no answer at all: nothing is written to the client, and
    server and messages stay as the lookup left them. *)
Theorem ServeDNS_upstream_failure_is_silent env r w domainName flag w1 resolver :
  blacked env (Question r) = Some domainName ->
  checkCache env r w = (Some (None, flag), w1) ->
  pick env (remoteResolver (srv w1)) = Some resolver ->
  (match Pack env r with
   | inl _ => True
   | inr data =>
     exists e, ExchangeDNS env (addr resolver) data (timeout (srv w1)) = inl e
   end) ->
  ServeDNS env r w
  = (Some tt,
     logged (match Pack env r with
             | inl _ => []
             | inr data => [EvExchangeDNS (addr resolver) data (timeout (srv w1))]
             end) w1).
Proof.
  intros Hb Hc Hp Hfail.
  unfold ServeDNS. cbv beta iota delta [applyFilterChain]. rewrite Hb.
  rewrite (dns_facts.bind_run _ _ _ _ _ Hc). cbn [fst snd].
  rewrite (dns_facts.bind_run (ret false) _ w1 false w1 eq_refl). cbn [andb].
  assert (Hr : getResolver env true w1 = (Some resolver, w1)).
  { unfold getResolver. now rewrite Hp. }
  rewrite (dns_facts.bind_run _ _ _ _ _ Hr).
  destruct (Pack env r) as [e | data].
  - cbn. now rewrite logged_nil.
  - destruct Hfail as [e He].
    rewrite (dns_facts.bind_run get_srv _ w1 (srv w1) w1 eq_refl).
    rewrite (dns_facts.bind_run (emit _) _ w1 tt
               (logged [EvExchangeDNS (addr resolver) data (timeout (srv w1))] w1)
               eq_refl).
    now rewrite He.
Qed.

(** X21: a query none of whose questions is on the policy list goes to a
    local resolver and nowhere else: when the exchange succeeds the
    response is written to the client as it came, and when it fails nothing
    is written; the cache, the stored messages and the clock are not
    touched. *)
Theorem ServeDNS_not_proxied env r w resolver :
  blacked env (Question r) = None ->
  pick env (localResolver (srv w)) = Some resolver ->
  ServeDNS env r w
  = (Some tt,
     logged (EvExchangeContext (addr resolver)
             :: match ExchangeContext env r (addr resolver) with
                | inl _ => []
                | inr response_ => [EvWriteMsg response_]
                end) w).
Proof.
  intros Hb Hp.
  unfold ServeDNS. cbv beta iota delta [applyFilterChain]. rewrite Hb.
  assert (Hr : getResolver env false w = (Some resolver, w)).
  { unfold getResolver. now rewrite Hp. }
  rewrite (dns_facts.bind_run _ _ _ _ _ Hr).
  rewrite (dns_facts.bind_run (emit _) _ w tt
             (logged [EvExchangeContext (addr resolver)] w) eq_refl).
  destruct (ExchangeContext env r (addr resolver)); cbn.
  - reflexivity.
  - unfold logged, emit. cbn. now rewrite <- app_assoc.
Qed.

Lemma ServeDNS_miss_answers_from_upstream_witness :
  let out := ServeDNS (examples.example_env (1000 * Second)) (examples.example_query 4242)
               examples.miss_world in
  out.1 = Some tt
  /\ log out.2
     = [EvExchangeDNS "1.1.1.1:53" [Byte.x12; Byte.x34] (5 * Second);
        EvAddIp "example.com" [Byte.x5d; Byte.xb8; Byte.xd8; Byte.x22];
        EvWriteMsg (set_Id 4242 examples.example_answer)].
Proof.
  assert (Ht : Forall (fun a => rr_typed a = true) (Answer examples.example_answer))
    by (apply List.Forall_cons; [reflexivity | apply List.Forall_nil]).
  destruct (ServeDNS_miss_answers_from_upstream (examples.example_env (1000 * Second))
              (examples.example_query 4242) examples.miss_world "example.com" false
              examples.miss_world {| addr := "1.1.1.1:53"; client := "udp" |}
              [Byte.x12; Byte.x34] examples.example_answer
              eq_refl eq_refl eq_refl eq_refl eq_refl Ht)
    as (H1 & H2 & _).
  split; [exact H1 | exact H2].
Defined.

Lemma ServeDNS_upstream_failure_is_silent_witness :
  ServeDNS (examples.silent_env (1000 * Second)) (examples.example_query 4242)
    examples.miss_world
  = (Some tt,
     logged [EvExchangeDNS "1.1.1.1:53" [Byte.x12; Byte.x34] (5 * Second)]
       examples.miss_world).
Proof.
  exact (ServeDNS_upstream_failure_is_silent (examples.silent_env (1000 * Second))
           (examples.example_query 4242) examples.miss_world "example.com" false
           examples.miss_world {| addr := "1.1.1.1:53"; client := "udp" |}
           eq_refl eq_refl eq_refl (ex_intro _ (Ext 3) eq_refl)).
Defined.

Lemma ServeDNS_not_proxied_witness :
  ServeDNS (examples.example_env (1000 * Second)) examples.lan_query examples.example_world
  = (Some tt,
     logged [EvExchangeContext "192.168.1.1:53"; EvWriteMsg examples.example_answer]
       examples.example_world).
Proof.
  exact (ServeDNS_not_proxied (examples.example_env (1000 * Second)) examples.lan_query
           examples.example_world {| addr := "192.168.1.1:53"; client := "udp" |}
           eq_refl eq_refl).
Defined.

(** X22: a tunnel answer is served from the cache afterwards.  When a
    proxied query missed the cache, was answered through the tunnel with an
    answer that has an A record of class INET, and the server caches: a
    later proxied query whose first question is of class INET and names the
    policy-matched name of the first, arriving not after the half deadline
    and before the full one, is answered with that same answer, under its
    own id, and with nothing else; no query goes through the tunnel. *)
Theorem ServeDNS_tunnel_answer_is_then_served_from_cache
    env r w domainName flag w1 resolver data answer caches r2 q2 qs2 d2 :
  blacked env (Question r) = Some domainName ->
  checkCache env r w = (Some (None, flag), w1) ->
  pick env (remoteResolver (srv w1)) = Some resolver ->
  Pack env r = inr data ->
  ExchangeDNS env (addr resolver) data (timeout (srv w1)) = inr answer ->
  Forall (fun a => rr_typed a = true) (Answer answer) ->
  dnsCaches (srv w1) = Some caches ->
  existsb is_inet_A (Answer answer) = true ->
  0 <= max_ttl (Answer answer) 0 < 2 ^ 32 ->
  Question r2 = q2 :: qs2 ->
  Qclass q2 = ClassINET ->
  TrimSuffix (Name q2) "." = domainName ->
  blacked env (Question r2) = Some d2 ->
  let t := max_ttl (Answer answer) 0 in
  let now := clock env (S (S (ticks w1))) in
  now <= clock env (ticks w1) + t / 2 * Second ->
  now < clock env (S (ticks w1)) + t * Second ->
  let w6 := (ServeDNS env r w).2 in
  (ServeDNS env r2 w6).1 = Some tt
  /\ log (ServeDNS env r2 w6).2 = log w6 ++ [EvWriteMsg (set_Id (Id r2) answer)].
Proof.
  intros Hb Hc Hp Hk Hx Ht Hcache HA Httl Hq2 Hc2 Hname Hb2 t now Hhalf Hfull w6.
  destruct (ttl_duration _ Httl) as (D1 & D2 & _). fold t in D1, D2.
  set (entry := {| response := next w1;
                   halfTtl := clock env (ticks w1) + int64 (Z.shiftr t 1 * Second);
                   ttl := clock env (S (ticks w1)) + int64 (t * Second) |}).
  assert (Hw6 : dnsCaches (srv w6) = Some (<[domainName := entry]> caches)
                /\ ticks w6 = S (S (ticks w1))
                /\ heap w6 !! next w1 = Some (set_Id (Id r) answer)).
  { subst w6. rewrite (ServeDNS_miss_run _ _ _ _ _ _ _ _ _ Hb Hc Hp Hk Hx Ht).
    unfold after_upstream. cbv zeta. cbn [snd]. rewrite HA. cbn [andb].
    rewrite Hcache, bool_decide_true by discriminate.
    erewrite AddDnsCache_run by exact Hcache. cbn.
    now rewrite lookup_insert_eq. }
  destruct Hw6 as (E1 & E2 & E3).
  assert (Hlook : (<[domainName := entry]> caches) !! TrimSuffix (Name q2) "." = Some entry)
    by (rewrite Hname; apply lookup_insert_eq).
  assert (Hlt : clock env (ticks w6) < ttl entry).
  { rewrite E2. cbn. rewrite D2. exact Hfull. }
  pose proof (checkCache_run env r2 w6 q2 qs2 _ entry Hq2 Hc2 E1 Hlook Hlt) as Hcc.
  assert (Hflag : (halfTtl entry <? clock env (ticks w6)) = false).
  { rewrite E2. cbn. rewrite D1. apply Z.ltb_ge. exact Hhalf. }
  rewrite Hflag in Hcc. cbn [response entry] in Hcc.
  assert (Hm : alter (set_Id (Id r2)) (next w1) (heap w6) !! next w1
               = Some (set_Id (Id r2) answer)).
  { rewrite lookup_alter. destruct (decide (next w1 = next w1)); [|congruence].
    now rewrite E3. }
  rewrite (ServeDNS_fresh_hit_run env r2 w6 d2 (next w1) _ _ Hb2 Hcc Hm).
  split; reflexivity.
Qed.

Lemma ServeDNS_tunnel_answer_is_then_served_from_cache_witness :
  let env := examples.example_env (1000 * Second) in
  let w6 := (ServeDNS env (examples.example_query 1) examples.miss_world).2 in
  (ServeDNS env (examples.example_query 2) w6).1 = Some tt
  /\ log (ServeDNS env (examples.example_query 2) w6).2
     = log w6 ++ [EvWriteMsg (set_Id 2 examples.example_answer)].
Proof.
  apply (ServeDNS_tunnel_answer_is_then_served_from_cache
           (examples.example_env (1000 * Second)) (examples.example_query 1)
           examples.miss_world "example.com" false examples.miss_world
           {| addr := "1.1.1.1:53"; client := "udp" |} [Byte.x12; Byte.x34]
           examples.example_answer ∅ (examples.example_query 2)
           {| Name := "example.com."; Qtype := 1; Qclass := 1 |} [] "example.com");
    try reflexivity.
  - apply List.Forall_cons; [reflexivity | apply List.Forall_nil].
  - vm_compute. split; [discriminate | reflexivity].
  - vm_compute. discriminate.
Defined.

(** *** StartDnsServer and Reload *)

Lemma substring_after (a s : string) (n : nat) :
  String.substring (String.length a) n (a +:+ s) = String.substring 0 n s.
Proof. induction a as [|ch a IH]; [reflexivity | exact IH]. Qed.

Lemma Contains_colon_appended a : Contains (a +:+ ":53") ":" = true.
Proof.
  unfold Contains.
  destruct (String.index 0 ":" (a +:+ ":53")) eqn:E; [reflexivity|].
  exfalso.
  apply (String.index_correct3 0 (String.length a)) in E;
    [|discriminate | apply Nat.le_0_l].
  apply E. now rewrite substring_after.
Qed.

Lemma make_resolver_colon a : Contains (addr (make_resolver a)) ":" = true.
Proof.
  unfold make_resolver. destruct (Contains a ":") eqn:E; cbn;
    [exact E | apply Contains_colon_appended].
Qed.

Lemma resolvers_colon l :
  Forall (fun r => Contains (addr r) ":" = true) (map make_resolver l).
Proof.
  induction l as [|a l IH]; [apply List.Forall_nil|].
  apply List.Forall_cons; [apply make_resolver_colon | exact IH].
Qed.

(** X23: every resolver a server holds, after [StartDnsServer] and after
    every [Reload], has an address with a colon in it ([":53"] is appended
    to a configured address that has none), and the server holds as many
    local and remote resolvers as the configuration names. *)
Theorem resolver_addresses_have_a_colon dnsConfig pacMgr routingMgr c0 :
  (forall c, StartDnsServer dnsConfig pacMgr routingMgr = Ok c ->
     Forall (fun r => Contains (addr r) ":" = true) (localResolver c ++ remoteResolver c)
     /\ length (localResolver c) = length (LocalResolver dnsConfig)
     /\ length (remoteResolver c) = length (ProxyResolver dnsConfig))
  /\ Forall (fun r => Contains (addr r) ":" = true)
       (localResolver (Reload dnsConfig c0) ++ remoteResolver (Reload dnsConfig c0))
  /\ length (localResolver (Reload dnsConfig c0)) = length (LocalResolver dnsConfig)
  /\ length (remoteResolver (Reload dnsConfig c0)) = length (ProxyResolver dnsConfig).
Proof.
  split.
  - intros c. unfold StartDnsServer.
    destruct routingMgr; [|discriminate]. destruct pacMgr; [|discriminate].
    intros [= <-]. cbn. rewrite !length_map.
    split; [|auto]. apply Forall_app. split; apply resolvers_colon.
  - unfold Reload. cbn. rewrite !length_map.
    split; [|auto]. apply Forall_app. split; apply resolvers_colon.
Qed.

(** X24: [Reload] with the same configuration twice is [Reload] once; it
    changes nothing on a server that [StartDnsServer] has just made from
    that configuration, when the send number fits an [int32]; and it reads
    the resolver lists, the cache switch and the send number of the
    configuration and nothing else, the timeout among the things it does
    not read. *)
Theorem Reload_is_idempotent dnsConfig c :
  Reload dnsConfig (Reload dnsConfig c) = Reload dnsConfig c
  /\ (forall pacMgr routingMgr c1,
        StartDnsServer dnsConfig pacMgr routingMgr = Ok c1 ->
        - 2 ^ 31 <= SendNum dnsConfig < 2 ^ 31 ->
        Reload dnsConfig c1 = c1)
  /\ (forall dnsConfig',
        LocalResolver dnsConfig' = LocalResolver dnsConfig ->
        ProxyResolver dnsConfig' = ProxyResolver dnsConfig ->
        Cache dnsConfig' = Cache dnsConfig ->
        SendNum dnsConfig' = SendNum dnsConfig ->
        Reload dnsConfig' c = Reload dnsConfig c).
Proof.
  split; [|split].
  - unfold Reload. cbn. f_equal.
    destruct (Cache dnsConfig); [|reflexivity]. now destruct (dnsCaches c).
  - intros pacMgr routingMgr c1. unfold StartDnsServer.
    destruct routingMgr; [|discriminate]. destruct pacMgr; [|discriminate].
    intros [= <-] Hs. unfold Reload. cbn.
    rewrite (dns_facts.int32_small _ Hs). f_equal.
    + destruct (SendNum dnsConfig <? 1); apply dns_facts.int32_small; lia.
    + now destruct (Cache dnsConfig).
  - intros cfg' H1 H2 H3 H4. unfold Reload. now rewrite H1, H2, H3, H4.
Qed.

(** The send number after [StartDnsServer], at a configured value of
    [- 3]. *)
Lemma StartDnsServer_sendNum_witness :
  exists c, StartDnsServer (examples.example_config (- 3)) (Some 1%nat) (Some 2%nat) = Ok c
            /\ 1 <= sendNum c.
Proof.
  eexists. split; [reflexivity|].
  exact (dns_facts.StartDnsServer_sendNum (examples.example_config (- 3))
           (Some 1%nat) (Some 2%nat) _ eq_refl).
Defined.

Lemma Reload_sendNum_small_witness :
  1 <= sendNum (Reload (examples.example_config 0) examples.example_server).
Proof.
  exact (dns_facts.Reload_sendNum_small (examples.example_config 0)
           examples.example_server ltac:(vm_compute; split; [discriminate | reflexivity])).
Defined.

End dns_more.
